(** * The Twilio webhook bridge of [tests/twilio/test_webhook_integration.py]

    A shallow embedding of the three functions of the test server
    ([validate_twilio_request], [handle_incoming_call], [handle_media_stream])
    together with the few pieces of Python and of the [twilio] package they
    rest on, and the properties of the repository's specification that
    concern them. *)

From Stdlib Require Import String Ascii List ZArith NArith Bool Lia.
From Stdlib Require Import Floats.PrimFloat.
Import ListNotations.

#[local] Set Warnings "-register-all".

Local Open Scope string_scope.
Local Open Scope list_scope.

(** ** Python values *)

Module Py.

(** The exceptions that the modelled code can meet.  All of them derive from
    [Exception] except [CancelledError] and [KeyboardInterrupt], which derive
    from [BaseException] only and so escape an [except Exception] clause. *)
Inductive exn : Type :=
| JSONDecodeError
| UnicodeDecodeError
| AttributeError
| TypeError
| KeyError
| RuntimeError
| HTTPException
| WebSocketDisconnect
| CancelledError
| KeyboardInterrupt.

Definition is_Exception (e : exn) : bool :=
  match e with
  | CancelledError | KeyboardInterrupt => false
  | _ => true
  end.

(** A [str] is kept as the bytes of its UTF-8 encoding, a [bytes] object as
    its bytes; both are Rocq strings. *)
Definition str := string.
Definition bytes := string.

(** What [json.loads] returns: [None], [bool], [int], [float], [str], [list]
    and [dict] (an association list, in insertion order). *)
Inductive json : Type :=
| JNull
| JBool (b : bool)
| JInt (z : Z)
| JFloat (f : float)
| JStr (s : str)
| JList (l : list json)
| JDict (d : list (str * json)).

(** Truth value of an object, as [if x] and [x if c else y] test it. *)
Definition truthy (v : json) : bool :=
  match v with
  | JNull => false
  | JBool b => b
  | JInt z => negb (Z.eqb z 0)
  | JFloat f => negb (PrimFloat.eqb f 0%float)
  | JStr s => negb (String.eqb s "")
  | JList l => match l with [] => false | _ :: _ => true end
  | JDict d => match d with [] => false | _ :: _ => true end
  end.

(** Truth value of the result of [os.getenv]: [None] and the empty string
    are false. *)
Definition truthy_env (v : option str) : bool :=
  match v with
  | None => false
  | Some s => negb (String.eqb s "")
  end.

(** A byte of the form 10xxxxxx continues a UTF-8 sequence. *)
Definition is_continuation (c : ascii) : bool :=
  let n := N_of_ascii c in (128 <=? n)%N && (n <=? 191)%N.

(** [len] of a [str]: its number of code points, the bytes of its encoding
    that start a sequence. *)
Fixpoint str_len (s : str) : nat :=
  match s with
  | EmptyString => 0
  | String c rest =>
      if is_continuation c then str_len rest else S (str_len rest)
  end.

(** [len(x)]: defined on [str], [list] and [dict]; a [TypeError] on the
    others. *)
Definition len (v : json) : exn + nat :=
  match v with
  | JStr s => inr (str_len s)
  | JList l => inr (List.length l)
  | JDict d => inr (List.length d)
  | _ => inl TypeError
  end.

Fixpoint lookup (key : str) (d : list (str * json)) : option json :=
  match d with
  | [] => None
  | (k, v) :: rest => if String.eqb k key then Some v else lookup key rest
  end.

(** [d.get(key, default)] on a [dict]. *)
Definition dict_get (d : list (str * json)) (key : str) (default : json) : json :=
  match lookup key d with
  | Some v => v
  | None => default
  end.

(** [x.get(key, default)] on an arbitrary object: only a [dict] has the
    method. *)
Definition get (x : json) (key : str) (default : json) : exn + json :=
  match x with
  | JDict d => inr (dict_get d key default)
  | _ => inl AttributeError
  end.

(** [x == "literal"] for an arbitrary object [x]. *)
Definition eq_str (x : json) (lit : str) : bool :=
  match x with
  | JStr s => String.eqb s lit
  | _ => false
  end.

(** ASCII case folding.  On the UTF-8 encoding it agrees with [str.lower] as
    far as comparison with an ASCII literal without [k] or [i] goes (the
    only letters that some non-ASCII character lowers to). *)
Definition lower_ascii (c : ascii) : ascii :=
  let n := N_of_ascii c in
  if (65 <=? n)%N && (n <=? 90)%N then ascii_of_N (n + 32) else c.

Fixpoint lower (s : str) : str :=
  match s with
  | EmptyString => EmptyString
  | String c rest => String (lower_ascii c) (lower rest)
  end.

(** [s.startswith(p)]. *)
Fixpoint startswith (p s : str) : bool :=
  match p, s with
  | EmptyString, _ => true
  | String _ _, EmptyString => false
  | String a p', String b s' => Ascii.eqb a b && startswith p' s'
  end.

(** [old in s]. *)
Fixpoint contains (old s : str) : bool :=
  startswith old s
  || match s with
     | EmptyString => false
     | String _ rest => contains old rest
     end.

(** [s.replace(old, new)] for a non-empty [old]: the occurrences of [old]
    are replaced from left to right, without overlap.  [skip] counts the
    characters of an occurrence just replaced that remain to be dropped. *)
Fixpoint replace_from (skip : nat) (old new s : str) : str :=
  match s with
  | EmptyString => EmptyString
  | String c rest =>
      match skip with
      | S k => replace_from k old new rest
      | O =>
          if startswith old s
          then (new ++ replace_from (String.length old - 1) old new rest)%string
          else String c (replace_from 0 old new rest)
      end
  end.

Definition replace (old new s : str) : str := replace_from 0 old new s.

(** Strict UTF-8, as [bytes.decode()] checks it: [need] continuation bytes
    are still expected, the next of them within [lo..hi]. *)
Fixpoint utf8_valid_from (need : nat) (lo hi : N) (b : bytes) : bool :=
  match b with
  | EmptyString => Nat.eqb need 0
  | String c rest =>
      let n := N_of_ascii c in
      match need with
      | S k => (lo <=? n)%N && (n <=? hi)%N && utf8_valid_from k 128 191 rest
      | O =>
          if (n <=? 127)%N then utf8_valid_from 0 128 191 rest
          else if (194 <=? n)%N && (n <=? 223)%N then utf8_valid_from 1 128 191 rest
          else if (n =? 224)%N then utf8_valid_from 2 160 191 rest
          else if (n =? 237)%N then utf8_valid_from 2 128 159 rest
          else if (225 <=? n)%N && (n <=? 239)%N then utf8_valid_from 2 128 191 rest
          else if (n =? 240)%N then utf8_valid_from 3 144 191 rest
          else if (241 <=? n)%N && (n <=? 243)%N then utf8_valid_from 3 128 191 rest
          else if (n =? 244)%N then utf8_valid_from 3 128 143 rest
          else false
      end
  end.

(** [b.decode()]: the UTF-8 text, or [UnicodeDecodeError]. *)
Definition decode (b : bytes) : exn + str :=
  if utf8_valid_from 0 128 191 b then inr b else inl UnicodeDecodeError.

End Py.

(** ** Effects

    The handlers print to standard output, write to the WebSocket they serve,
    and raise.  A computation threads the [world] it acts on and ends in an
    [outcome]: a value, a raised exception, or [Pending] when it is suspended
    on a receive that the messages arrived so far cannot serve. *)

Module Eff.

Import Py.

(** The lines printed by the three handlers, a constructor per [print] call,
    carrying what its f-string interpolates. *)
Inductive line : Type :=
| token_not_configured
| incoming_call_received
| call_from (number : str)
| call_to (number : str)
| call_sid (sid : str)
| invalid_signature
| twiml_generated
| websocket_connected
| stream_connected
| stream_started
| stream_sid_is (sid : json)
| received_audio (size : nat)
| stream_stopped
| websocket_error (e : exn)
| websocket_disconnected.

(** Where a message written by a handler goes.  The code holds one
    connection only, the carrier's WebSocket; the speech backend of the
    specification is named so that statements can speak of it. *)
Inductive peer : Type := Carrier | Backend.

Record world : Type := mkWorld {
  stdout : list line;           (* lines printed, oldest first *)
  sent : list (peer * json);    (* messages written, oldest first *)
  attempts : nat                (* calls of [send_text] so far *)
}.

Definition fresh : world := mkWorld [] [] 0.

Inductive outcome (A : Type) : Type :=
| Done (a : A)
| Raised (e : exn)
| Pending.

Arguments Done {A} a.
Arguments Raised {A} e.
Arguments Pending {A}.

Definition M (A : Type) : Type := world -> world * outcome A.

Definition ret {A} (a : A) : M A := fun w => (w, Done a).

Definition raise {A} (e : exn) : M A := fun w => (w, Raised e).

Definition suspend {A} : M A := fun w => (w, Pending).

Definition bind {A B} (m : M A) (k : A -> M B) : M B :=
  fun w =>
    match m w with
    | (w', Done a) => k a w'
    | (w', Raised e) => (w', Raised e)
    | (w', Pending) => (w', Pending)
    end.

(** A pure step that may raise. *)
Definition lift {A} (r : exn + A) : M A :=
  match r with
  | inl e => raise e
  | inr a => ret a
  end.

Definition print (l : line) : M unit :=
  fun w => (mkWorld (stdout w ++ [l]) (sent w) (attempts w), Done tt).

(** [try: body / except Exception as e: handler(e) / finally: final].  An
    exception that is no [Exception] passes the [except] clause; the [finally]
    clause runs on every way out.  A suspended body stays suspended. *)
Definition try_except_finally {A} (body : M A) (handler : exn -> M A) (final : M unit) : M A :=
  fun w =>
    let after :=
      match body w with
      | (w', Raised e) => if is_Exception e then handler e w' else (w', Raised e)
      | r => r
      end in
    match after with
    | (w', Pending) => (w', Pending)
    | (w', r) =>
        match final w' with
        | (w'', Done _) => (w'', r)
        | (w'', Raised e) => (w'', Raised e)
        | (w'', Pending) => (w'', Pending)
        end
    end.

End Eff.

Declare Scope eff_scope.
Delimit Scope eff_scope with eff.

Notation "x <- m ;; k" := (Eff.bind m (fun x => k))
  (at level 61, m at next level, right associativity) : eff_scope.
Notation "m ;; k" := (Eff.bind m (fun _ => k))
  (at level 61, right associativity) : eff_scope.

(** ** The [twilio] package, as far as the server uses it *)

Module Twilio.

Import Py.

(** TwiML: the verbs the server emits, and the noun nested in [<Start>]. *)
Inductive noun : Type :=
| Stream (url : str).

Inductive verb : Type :=
| Say (message : str)
| Start (nouns : list noun)
| Pause (length : Z).

(** A [VoiceResponse] under construction: the verbs appended so far. *)
Definition VoiceResponse : Type := list verb.

Definition say (message : str) (r : VoiceResponse) : VoiceResponse :=
  r ++ [Say message].

Definition pause (length : Z) (r : VoiceResponse) : VoiceResponse :=
  r ++ [Pause length].

(** [response.start()] appends an empty [<Start>] and hands it back; the
    handle is its position in the response, which later calls on the handle
    update in place. *)
Definition start (r : VoiceResponse) : VoiceResponse * nat :=
  (r ++ [Start []], List.length r).

Fixpoint update_at (i : nat) (f : verb -> verb) (r : VoiceResponse) : VoiceResponse :=
  match r, i with
  | [], _ => []
  | v :: rest, O => f v :: rest
  | v :: rest, S j => v :: update_at j f rest
  end.

(** [start.stream(url=...)] on the handle returned by [start]. *)
Definition stream (handle : nat) (url : str) (r : VoiceResponse) : VoiceResponse :=
  update_at handle
    (fun v => match v with
              | Start ns => Start (ns ++ [Stream url])
              | other => other
              end) r.

(** The type of [RequestValidator(token).validate(uri, params, signature)],
    with the token as first argument: the verdict, or the exception that
    the call raises. *)
Definition validator : Type := str -> str -> str -> str -> exn + bool.

(** The [twilio] package is no part of the repository.  Where a statement is
    tried on concrete values, this stands for its [validate] on the [params]
    that [validate_twilio_request] hands over, a [str], and a URL without
    query: an empty [str] adds nothing to the URL that is signed, and the
    signature is compared with the one computed for the URL as it is and
    for the URL with its port added; of a [str] that is not empty the
    library takes the characters for parameter names, and looking the first
    one up in the [str] raises [TypeError].  [mac] stands for the base64 of
    HMAC-SHA1 under the token, [with_port] for the library's [add_port]. *)
Definition RequestValidator_validate
    (mac : str -> str -> str) (with_port : str -> str) : validator :=
  fun token uri params signature =>
    if String.eqb params "" then
      inr (String.eqb (mac token uri) signature
           || String.eqb (mac token (with_port uri)) signature)
    else
      inl TypeError.

(** The instructions of a document, for counting. *)
Definition streams_of (v : verb) : list str :=
  match v with
  | Start ns => map (fun n => match n with Stream u => u end) ns
  | _ => []
  end.

Definition stream_urls (r : VoiceResponse) : list str := flat_map streams_of r.


End Twilio.

(** ** The control endpoint *)

Module Webhook.

Import Py Eff Twilio.
Local Open Scope eff_scope.

(** The process environment, as the two [os.getenv] calls read it. *)
Record environ : Type := mkEnviron {
  TWILIO_AUTH_TOKEN : option str;
  SIMPLE_VOICE_TEST : option str
}.

(** A Starlette [Request]: [url] and [base_url] already as [str(...)] gives
    them, the headers as the server hands them over (names in lower case), the
    raw body, and what [await request.form()] makes of body and content
    type: the items of the parsed form (none for a content type that is no
    form), or the exception of a parser that cannot read the body. *)
Record Request : Type := mkRequest {
  url : str;
  base_url : str;
  headers : list (str * str);
  body : bytes;
  form : exn + list (str * str)
}.

(** [request.headers.get(name, default)]: the first header of that name,
    compared without regard to case. *)
Fixpoint first_header (name : str) (hs : list (str * str)) : option str :=
  match hs with
  | [] => None
  | (k, v) :: rest => if String.eqb k name then Some v else first_header name rest
  end.

Definition headers_get (hs : list (str * str)) (name default : str) : str :=
  match first_header (lower name) hs with
  | Some v => v
  | None => default
  end.

(** [form_data.get(key, default)]: the last item of that key. *)
Fixpoint form_get (items : list (str * str)) (key default : str) : str :=
  match items with
  | [] => default
  | (k, v) :: rest => form_get rest key (if String.eqb k key then v else default)
  end.

(** A Starlette [Response]: a body of [None] is sent as no bytes at all, the
    body of the other branch is [str(response)], the XML text of the TwiML
    document, kept here as the document it renders. *)
Inductive content : Type :=
| Empty
| Xml (document : VoiceResponse).

Record Response : Type := mkResponse {
  status_code : Z;
  body_of : content;
  media_type : option str
}.

Section WithValidator.

Variable validate : validator.

Definition validate_twilio_request (env : environ) (request : Request) (body : str) : M bool :=
  if negb (truthy_env (TWILIO_AUTH_TOKEN env)) then
    print token_not_configured ;;
    ret true
  else
    let token := match TWILIO_AUTH_TOKEN env with Some t => t | None => "" end in
    let signature := headers_get (headers request) "X-Twilio-Signature" "" in
    let url := url request in
    lift (validate token url body signature).

Definition simple_voice_test (env : environ) : bool :=
  let flag := match SIMPLE_VOICE_TEST env with Some v => v | None => "false" end in
  String.eqb (lower flag) "true".

Definition handle_incoming_call (env : environ) (request : Request) : M Response :=
  print incoming_call_received ;;
  let body := body request in
  form_data <- lift (form request) ;;
  print (call_from (form_get form_data "From" "Unknown")) ;;
  print (call_to (form_get form_data "To" "Unknown")) ;;
  print (call_sid (form_get form_data "CallSid" "Unknown")) ;;
  text <- lift (decode body) ;;
  valid <- validate_twilio_request env request text ;;
  if negb valid then
    print invalid_signature ;;
    ret (mkResponse 403 Empty None)
  else
    let response : VoiceResponse := [] in
    let response :=
      if simple_voice_test env then
        let response :=
          say "Hello! This is your Pipecat AI agent. The webhook integration is working correctly." response in
        say "You can now integrate this with your voice AI system." response
      else
        let response := say "Connecting you to the AI agent. Please wait a moment." response in
        let base_url :=
          replace "https://" "wss://" (replace "http://" "ws://" (base_url request)) in
        let websocket_url := (base_url ++ "media-stream")%string in
        let '(response, start) := start response in
        let response := stream start websocket_url response in
        pause 3600 response in
    print twiml_generated ;;
    ret (mkResponse 200 (Xml response) (Some "application/xml")).

End WithValidator.

End Webhook.

(** ** The streaming endpoint *)

Module MediaStream.

Import Py Eff.
Local Open Scope eff_scope.

(** What one [await websocket.receive_text()] meets: a text frame, kept as
    what [json.loads] makes of it ([None] when it raises [JSONDecodeError]),
    or an exception raised by the receive itself (the peer went away, a
    binary frame arrived, the task was cancelled). *)
Inductive arrival : Type :=
| Text (loads : option json)
| Fault (e : exn).

(** The accepted WebSocket: the arrivals in order, and for each call of
    [send_text], counted from 0, the exception it raises if any. *)
Record WebSocket : Type := mkWebSocket {
  incoming : list arrival;
  send_fault : nat -> option exn
}.

(** [await websocket.send_text(json.dumps(message))]; a message is kept as
    the object [json.dumps] is given. *)
Definition send_text (websocket : WebSocket) (message : json) : M unit :=
  fun w =>
    match send_fault websocket (attempts w) with
    | Some e => (mkWorld (stdout w) (sent w) (S (attempts w)), Raised e)
    | None => (mkWorld (stdout w) (sent w ++ [(Carrier, message)]) (S (attempts w)), Done tt)
    end.

Definition json_loads (message : option json) : M json :=
  match message with
  | Some data => ret data
  | None => raise JSONDecodeError
  end.

Inductive control : Type := Continue | Break.

(** The body of the [while True] loop from [json.loads] on, for one received
    text. *)
Definition on_message (websocket : WebSocket) (message : option json) : M control :=
  data <- json_loads message ;;
  event <- lift (get data "event" JNull) ;;
  if eq_str event "connected" then
    print stream_connected ;;
    ret Continue
  else if eq_str event "start" then
    print stream_started ;;
    start <- lift (get data "start" (JDict [])) ;;
    stream_sid <- lift (get start "streamSid" JNull) ;;
    print (stream_sid_is stream_sid) ;;
    ret Continue
  else if eq_str event "media" then
    media <- lift (get data "media" (JDict [])) ;;
    payload <- lift (get media "payload" JNull) ;;
    size <- (if truthy payload then lift (len payload) else ret 0) ;;
    print (received_audio size) ;;
    streamSid <- lift (get data "streamSid" JNull) ;;
    let response_audio :=
      JDict [("event", JStr "media");
             ("streamSid", streamSid);
             ("media", JDict [("payload", payload)])] in
    send_text websocket response_audio ;;
    ret Continue
  else if eq_str event "stop" then
    print stream_stopped ;;
    ret Break
  else
    ret Continue.

(** The [while True] loop over the arrivals; it is suspended when they are
    used up. *)
Fixpoint receive_loop (websocket : WebSocket) (arrivals : list arrival) : M unit :=
  match arrivals with
  | [] => suspend
  | Fault e :: _ => raise e
  | Text message :: rest =>
      c <- on_message websocket message ;;
      match c with
      | Continue => receive_loop websocket rest
      | Break => ret tt
      end
  end.

(** The handler, from the accepted connection on. *)
Definition handle_media_stream (websocket : WebSocket) : M unit :=
  print websocket_connected ;;
  try_except_finally
    (receive_loop websocket (incoming websocket))
    (fun e => print (websocket_error e))
    (print websocket_disconnected).

(** The messages the specification speaks of, as the carrier sends them. *)
Definition start_event (streamSid : str) : json :=
  JDict [("event", JStr "start"); ("start", JDict [("streamSid", JStr streamSid)])].

Definition media_event (streamSid : json) (payload : json) : json :=
  JDict [("event", JStr "media"); ("streamSid", streamSid);
         ("media", JDict [("payload", payload)])].

Definition stop_event : json := JDict [("event", JStr "stop")].

(** The message echoed for a media event. *)
Definition echo (streamSid : json) (payload : json) : peer * json :=
  (Carrier, media_event streamSid payload).

(** A connection on which every send succeeds. *)
Definition reliable (arrivals : list arrival) : WebSocket :=
  mkWebSocket arrivals (fun _ => None).

Definition to (p : peer) (w : world) : list json :=
  map snd (filter (fun m => match fst m, p with
                            | Carrier, Carrier | Backend, Backend => true
                            | _, _ => false
                            end) (sent w)).

End MediaStream.

(** ** Shorthands for stating results *)

Module Notes.

Import Py Eff Twilio Webhook MediaStream.

(** The world after some more lines were printed. *)
Definition printed (w : world) (ls : list line) : world :=
  mkWorld (stdout w ++ ls) (sent w) (attempts w).

(** The world after some more messages were written, a send each. *)
Definition written (w : world) (ms : list (peer * json)) : world :=
  mkWorld (stdout w) (sent w ++ ms) (attempts w + List.length ms).

(** The same connection with other arrivals. *)
Definition arriving (websocket : WebSocket) (arrivals : list arrival) : WebSocket :=
  mkWebSocket arrivals (send_fault websocket).

(** The four event names the handler dispatches on. *)
Definition known_event (event : json) : bool :=
  eq_str event "connected" || eq_str event "start"
  || eq_str event "media" || eq_str event "stop".

(** The payloads that the size computed for the log line accepts: the ones
    that are false, and the ones that have a length. *)
Definition measurable (payload : json) : bool :=
  negb (truthy payload)
  || match payload with
     | JStr _ | JList _ | JDict _ => true
     | _ => false
     end.

(** The size the log line reports for such a payload. *)
Definition size_of (payload : json) : nat :=
  if truthy payload
  then match len payload with inr n => n | inl _ => 0 end
  else 0.


(** The validator lets the request through (with or without a secret). *)
Definition accepts (validate : validator) (env : environ) (request : Request) (text : str) : Prop :=
  snd (validate_twilio_request validate env request text fresh) = Done true.

(** The signature header of a request, as the validator reads it. *)
Definition signature_of (request : Request) : str :=
  headers_get (headers request) "X-Twilio-Signature" "".

(** The streaming-channel scheme of a control-channel scheme. *)
Definition streaming_scheme (scheme : str) : str :=
  if String.eqb scheme "https" then "wss" else "ws".

(** The text frames of a run of media events of one stream. *)
Definition media_frames (streamSid : json) (payloads : list str) : list arrival :=
  map (fun p => Text (Some (media_event streamSid (JStr p)))) payloads.

(** The outcome of a pure step that may raise, as [lift] reports it. *)
Definition answer {A} (r : exn + A) : outcome A :=
  match r with
  | inl e => Raised e
  | inr a => Done a
  end.

(** The request carries this signature: it is the value of its first
    [x-twilio-signature] header, or empty when it has no such header. *)
Definition carries (request : Request) (signature : str) : Prop :=
  (exists before after,
      headers request = before ++ ("x-twilio-signature", signature) :: after
      /\ forall v, ~ In ("x-twilio-signature", v) before)
  \/ ((forall v, ~ In ("x-twilio-signature", v) (headers request))
      /\ signature = "").

(** A keyed hash that is merely the key and the message side by side: it
    stands for HMAC-SHA1 where a statement is tried on concrete values. *)
Definition keyed_concat (key message : str) : str :=
  (key ++ "|" ++ message)%string.

Definition sample_url : str := "https://bridge.example/incoming-call".

(** The sample URL with the port of its scheme. *)
Definition sample_with_port (uri : str) : str :=
  replace "bridge.example/" "bridge.example:443/" uri.

(** The library, as it is tried on concrete requests. *)
Definition library : validator :=
  RequestValidator_validate keyed_concat sample_with_port.

Definition sample_body : str := "CallSid=CA1&From=%2B15550100&To=%2B15550199".


(** A form-encoded request as the carrier posts it, under a signature. *)
Definition sample_request (signature : str) : Request :=
  mkRequest sample_url "https://bridge.example/"
    [("content-type", "application/x-www-form-urlencoded");
     ("x-twilio-signature", signature)]
    sample_body
    (inr [("CallSid", "CA1"); ("From", "+15550100"); ("To", "+15550199")]).

(** The same without any body: an empty form. *)
Definition empty_request (signature : str) : Request :=
  mkRequest sample_url "https://bridge.example/"
    [("content-type", "application/x-www-form-urlencoded");
     ("x-twilio-signature", signature)]
    ""
    (inr []).

(** A request without headers, hence without form, on another base URL. *)
Definition bare_request (base : str) : Request :=
  mkRequest sample_url base [] sample_body (inr []).

Definition secret_set : environ := mkEnviron (Some "shh") None.

Definition secret_unset : environ := mkEnviron None None.

End Notes.

(** ** The liveness and root endpoints *)

Module Liveness.

Import Py Webhook.

(** A value read by [os.getenv], as it is serialised in a JSON answer. *)
Definition of_env (v : option str) : json :=
  match v with
  | Some s => JStr s
  | None => JNull
  end.

(** [a and b] on two such values: [a] when it is false, else [b]. *)
Definition and_env (a b : option str) : option str :=
  if truthy_env a then b else a.

(** [GET /health].  The phone number is the second variable the module
    reads from the environment, [TWILIO_PHONE_NUMBER]. *)
Definition health_check (env : environ) (TWILIO_PHONE_NUMBER : option str) : json :=
  JDict [("status", JStr "healthy");
         ("twilio_configured",
          JBool (truthy_env (and_env (TWILIO_AUTH_TOKEN env) TWILIO_PHONE_NUMBER)));
         ("phone_number", of_env TWILIO_PHONE_NUMBER)].

(** [GET /]. *)
Definition root (TWILIO_PHONE_NUMBER : option str) : json :=
  JDict [("message", JStr "Twilio Voice Integration Test Server");
         ("endpoints",
          JDict [("incoming_call", JStr "/incoming-call");
                 ("media_stream", JStr "/media-stream");
                 ("health", JStr "/health")]);
         ("twilio_phone", of_env TWILIO_PHONE_NUMBER);
         ("status", JStr "ready")].

End Liveness.

(** ** Further shorthands *)

Module Shapes.

Import Py Eff Twilio Webhook MediaStream Notes.

(** A body made of ASCII bytes only, as a form-encoded body is. *)
Fixpoint is_ascii_text (b : bytes) : bool :=
  match b with
  | EmptyString => true
  | String c rest => (N_of_ascii c <=? 127)%N && is_ascii_text rest
  end.

(** The character [x] does not occur in [s]. *)
Fixpoint avoids (x : ascii) (s : str) : bool :=
  match s with
  | EmptyString => true
  | String c rest => negb (Ascii.eqb c x) && avoids x rest
  end.

(** The secret is configured, in the sense of [if not TWILIO_AUTH_TOKEN]. *)
Definition configured (env : environ) : bool := truthy_env (TWILIO_AUTH_TOKEN env).

(** The token handed to the library when the secret is configured. *)
Definition token_of (env : environ) : str :=
  match TWILIO_AUTH_TOKEN env with Some t => t | None => "" end.

(** The stream URLs of the document a handler outcome carries, if any. *)
Definition stream_urls_of (r : outcome Response) : list str :=
  match r with
  | Done resp =>
      match body_of resp with
      | Xml document => stream_urls document
      | Empty => []
      end
  | _ => []
  end.

(** A message written by the handler is an echo when it is addressed to the
    carrier and has the shape of a media event. *)
Definition is_echo (m : peer * json) : Prop :=
  exists streamSid payload, m = echo streamSid payload.

(** The arrival is a JSON object whose event is [media]. *)
Definition media_text (a : arrival) : bool :=
  match a with
  | Text (Some (JDict d)) => eq_str (dict_get d "event" JNull) "media"
  | _ => false
  end.

(** The arrivals after which no session is left waiting: a failed receive,
    a text that is no JSON, a JSON value that is no object, a stop event. *)
Definition closes (a : arrival) : bool :=
  match a with
  | Fault _ => true
  | Text None => true
  | Text (Some (JDict d)) => eq_str (dict_get d "event" JNull) "stop"
  | Text (Some _) => true
  end.

(** The path that the root endpoint announces under a name. *)
Definition announced_path (phone : option str) (name : str) : exn + json :=
  match get (Liveness.root phone) "endpoints" JNull with
  | inr endpoints => get endpoints name JNull
  | inl e => inl e
  end.

(** A request body with one byte that no UTF-8 text contains, under no
    content type: the form is empty. *)
Definition broken_request : Request :=
  mkRequest sample_url "https://bridge.example/"
    [("x-twilio-signature", "bad")]
    (String (ascii_of_N 255) "CallSid=CA1")
    (inr []).

Definition simple_mode : environ := mkEnviron None (Some "True").

End Shapes.

(** ** Strings: replacement leaves alone what holds no occurrence *)

Module StrFacts.

Import Py.
Local Open Scope string_scope.

Lemma startswith_empty (s : str) : startswith "" s = true.
Proof. destruct s; reflexivity. Qed.

Lemma contains_unfold (old : str) (c : ascii) (rest : str) :
  contains old (String c rest) = startswith old (String c rest) || contains old rest.
Proof. reflexivity. Qed.

Lemma startswith_contains (old s : str) :
  startswith old s = true -> contains old s = true.
Proof.
  intros H. destruct s; simpl in *; rewrite H; reflexivity.
Qed.

(** An occurrence of [p ++ q] at the head yields an occurrence of [q] further on. *)
Lemma startswith_app_contains (p q s : str) :
  startswith (p ++ q) s = true -> contains q s = true.
Proof.
  revert s. induction p as [|a p IH]; intros s H.
  - now apply startswith_contains.
  - destruct s as [|b s]; [discriminate|].
    simpl in H. apply andb_true_iff in H as [_ H].
    rewrite contains_unfold, (IH _ H). apply orb_true_r.
Qed.

Lemma contains_suffix (p q s : str) :
  contains (p ++ q) s = true -> contains q s = true.
Proof.
  induction s as [|c s IH].
  - simpl. rewrite orb_false_r. apply startswith_app_contains.
  - rewrite contains_unfold. intros H. apply orb_true_iff in H as [H|H].
    + now apply startswith_app_contains in H.
    + rewrite contains_unfold, (IH H). apply orb_true_r.
Qed.

Lemma absent_suffix (p q s : str) :
  contains q s = false -> contains (p ++ q) s = false.
Proof.
  intros H. destruct (contains (p ++ q) s) eqn:E; [|reflexivity].
  apply contains_suffix in E. congruence.
Qed.

(** [replace] is the identity on a text without occurrence of [old]. *)
Lemma replace_absent (old new s : str) :
  contains old s = false -> replace_from 0 old new s = s.
Proof.
  induction s as [|c s IH]; intros H; [reflexivity|].
  rewrite contains_unfold in H. apply orb_false_iff in H as [Hhead Htail].
  cbn [replace_from]. rewrite Hhead, (IH Htail). reflexivity.
Qed.

(** The two replacements of [handle_incoming_call] on a base URL whose only
    scheme separator is its own. *)
Lemma upgrade_http (rest : str) :
  contains "://" rest = false ->
  replace "https://" "wss://" (replace "http://" "ws://" ("http://" ++ rest))
  = ("ws://" ++ rest)%string.
Proof.
  intros H.
  pose proof (absent_suffix "http" "://" rest H) as H1.
  pose proof (absent_suffix "https" "://" rest H) as H2.
  unfold replace. cbn.
  rewrite (replace_absent _ _ _ H1), (replace_absent _ _ _ H2). reflexivity.
Qed.

Lemma upgrade_https (rest : str) :
  contains "://" rest = false ->
  replace "https://" "wss://" (replace "http://" "ws://" ("https://" ++ rest))
  = ("wss://" ++ rest)%string.
Proof.
  intros H.
  pose proof (absent_suffix "http" "://" rest H) as H1.
  pose proof (absent_suffix "https" "://" rest H) as H2.
  unfold replace. cbn.
  rewrite (replace_absent _ _ _ H1). cbn.
  rewrite (replace_absent _ _ _ H2). reflexivity.
Qed.

End StrFacts.

(** ** The control endpoint: signature check and control document *)

Module WebhookFacts.

Import Py Eff Twilio Webhook Notes StrFacts.
Local Open Scope string_scope.

Ltac run_webhook :=
  unfold handle_incoming_call, validate_twilio_request, bind, print, lift, ret, raise;
  cbn [fst snd stdout sent attempts negb].

Lemma configured_token (token : str) :
  token <> "" -> truthy_env (Some token) = true.
Proof.
  intros H. unfold truthy_env. apply String.eqb_neq in H. now rewrite H.
Qed.

Lemma printed_app (w : world) (ls ls' : list line) :
  printed (printed w ls) ls' = printed w (ls ++ ls').
Proof. unfold printed; cbn. now rewrite app_assoc. Qed.

Lemma printed_nothing (w : world) : printed w [] = w.
Proof. destruct w. unfold printed; cbn. now rewrite app_nil_r. Qed.

Lemma lift_answer {A} (r : exn + A) (w : world) : lift r w = (w, answer r).
Proof. now destruct r. Qed.

(** The header lookup of the validator finds the signature the request
    carries. *)
Lemma first_header_skips (name : str) (before rest : list (str * str)) :
  (forall v, ~ In (name, v) before) ->
  first_header name (before ++ rest) = first_header name rest.
Proof.
  induction before as [|[k v] before IH]; intros H; [reflexivity|].
  cbn [app first_header]. destruct (String.eqb k name) eqn:E.
  - apply String.eqb_eq in E. subst k. elim (H v). now left.
  - apply IH. intros v' Hin. apply (H v'). now right.
Qed.

Lemma carried_signature_is_read (request : Request) (signature : str) :
  carries request signature -> signature_of request = signature.
Proof.
  unfold signature_of, headers_get.
  change (lower "X-Twilio-Signature") with "x-twilio-signature".
  intros [(before & after & Hh & Hfirst) | [Hnone ->]].
  - rewrite Hh, (first_header_skips _ _ _ Hfirst). cbn [first_header].
    now rewrite String.eqb_refl.
  - rewrite <- (app_nil_r (headers request)), (first_header_skips _ _ _ Hnone).
    reflexivity.
Qed.

(** The validator prints at most its warning, and ends as the library
    does. *)
Lemma validator_prints_and_answers (validate : validator) env request text :
  exists (ls : list line) (r : exn + bool),
    forall w, validate_twilio_request validate env request text w = (printed w ls, answer r).
Proof.
  unfold validate_twilio_request. destruct (truthy_env (TWILIO_AUTH_TOKEN env)); cbn [negb].
  - eexists [], _. intros w. rewrite lift_answer, printed_nothing. reflexivity.
  - exists [token_not_configured], (inr true). reflexivity.
Qed.

(** What the handler does before it turns to the validator. *)
Lemma handler_reaches_validator (validate : validator) env request items text (w : world) :
  form request = inr items ->
  decode (body request) = inr text ->
  handle_incoming_call validate env request w
  = (let (w', o) :=
       validate_twilio_request validate env request text
         (printed w [incoming_call_received;
                     call_from (form_get items "From" "Unknown");
                     call_to (form_get items "To" "Unknown");
                     call_sid (form_get items "CallSid" "Unknown")]) in
     match o with
     | Done valid =>
         if negb valid then
           (printed w' [invalid_signature], Done (mkResponse 403 Empty None))
         else
           (printed w' [twiml_generated],
            Done (mkResponse 200
                    (Xml (if simple_voice_test env
                          then [Say "Hello! This is your Pipecat AI agent. The webhook integration is working correctly.";
                                Say "You can now integrate this with your voice AI system."]
                          else [Say "Connecting you to the AI agent. Please wait a moment.";
                                Start [Stream (replace "https://" "wss://"
                                                 (replace "http://" "ws://" (base_url request))
                                               ++ "media-stream")];
                                Pause 3600]))
                    (Some "application/xml")))
     | Raised e => (w', Raised e)
     | Pending => (w', Pending)
     end).
Proof.
  intros Hform Hdecode.
  unfold handle_incoming_call, bind, print.
  cbn [fst snd stdout sent attempts]. rewrite Hform. cbn [lift ret].
  rewrite Hdecode. cbn [lift ret].
  unfold printed. cbn [stdout sent attempts]. rewrite <- !app_assoc. cbn [app].
  destruct (validate_twilio_request validate env request text _) as [w' [valid|e|]];
    try reflexivity.
  destruct valid; cbn [negb]; [|reflexivity].
  destruct (simple_voice_test env); reflexivity.
Qed.

(** When the call of the library raises, so does the handler: no response
    is returned. *)
Lemma library_exception_leaves_handler
    (validate : validator) env request items text token e (w : world) :
  form request = inr items ->
  decode (body request) = inr text ->
  TWILIO_AUTH_TOKEN env = Some token ->
  token <> "" ->
  validate token (url request) text (signature_of request) = inl e ->
  handle_incoming_call validate env request w
  = (printed w [incoming_call_received;
                call_from (form_get items "From" "Unknown");
                call_to (form_get items "To" "Unknown");
                call_sid (form_get items "CallSid" "Unknown")],
     Raised e).
Proof.
  intros Hform Hdecode Htoken Hset Hraise.
  rewrite (handler_reaches_validator _ _ _ _ _ _ Hform Hdecode).
  unfold validate_twilio_request. rewrite Htoken, (configured_token _ Hset).
  cbn [negb]. unfold signature_of in Hraise. now rewrite lift_answer, Hraise.
Qed.

(** C1 does not hold of the code.  The scenario of the specification, a
    form-encoded request under the header [bad] with the secret [shh]: the
    validator hands the decoded body, a text, to the library as [params];
    the library raises TypeError, and the handler raises with it instead of
    answering 403. *)
Theorem bad_signature_raises_instead_of_403 :
  handle_incoming_call library secret_set (sample_request "bad") fresh
  = (printed fresh [incoming_call_received; call_from "+15550100";
                    call_to "+15550199"; call_sid "CA1"],
     Raised TypeError).
Proof.
  apply (library_exception_leaves_handler library secret_set (sample_request "bad")
           [("CallSid", "CA1"); ("From", "+15550100"); ("To", "+15550199")]
           sample_body "shh" TypeError fresh); try reflexivity.
  discriminate.
Qed.

(** C2. Without a secret (the variable unset, or set to the empty string) the
    validator accepts every URL, body and signature header, and prints the
    line that says validation is skipped.  With a secret it prints nothing
    and ends as the call of the library does, with its verdict: validation
    is off exactly when no secret is configured. *)
Theorem validation_off_iff_no_secret
    (validate : validator) (env : environ) (request : Request)
    (body : str) (w : world) :
  (truthy_env (TWILIO_AUTH_TOKEN env) = false ->
   validate_twilio_request validate env request body w
   = (printed w [token_not_configured], Done true))
  /\ (forall token,
        TWILIO_AUTH_TOKEN env = Some token ->
        token <> "" ->
        validate_twilio_request validate env request body w
        = (w, answer (validate token (url request) body (signature_of request)))).
Proof.
  split.
  - intros H. unfold validate_twilio_request. now rewrite H.
  - intros token Htoken Hset. unfold validate_twilio_request.
    rewrite Htoken, (configured_token _ Hset). cbn [negb]. apply lift_answer.
Qed.




Lemma validation_off_iff_no_secret_witness :
  validate_twilio_request library secret_unset (sample_request "bad") sample_body fresh
  = (printed fresh [token_not_configured], Done true).
Proof.
  apply (proj1 (validation_off_iff_no_secret _ secret_unset (sample_request "bad")
                  sample_body fresh)).
  reflexivity.
Defined.



End WebhookFacts.

(** ** The streaming endpoint: one message at a time *)

Module StreamFacts.

Import Py Eff MediaStream Notes.

Ltac run_message :=
  unfold on_message, json_loads, send_text, lift, get, bind, print, ret, raise;
  cbn [fst snd stdout sent attempts].

(** The loop reads the connection only through its send faults. *)
Lemma receive_loop_arriving (websocket : WebSocket) (others arrivals : list arrival) (w : world) :
  receive_loop (arriving websocket others) arrivals w = receive_loop websocket arrivals w.
Proof.
  revert w. induction arrivals as [|[message|e] rest IH]; intros w; try reflexivity.
  cbn [receive_loop]. unfold bind.
  change (on_message (arriving websocket others) message w)
    with (on_message websocket message w).
  destruct (on_message websocket message w) as [w' [[|]| |]]; auto.
Qed.

(** Handling a received text never suspends: it ends with a value or raises. *)
Lemma on_message_ends (websocket : WebSocket) (message : option json) (w : world) :
  snd (on_message websocket message w) <> Pending.
Proof.
  run_message. destruct message as [data|]; [|discriminate].
  destruct data; try discriminate.
  cbn [fst snd].
  repeat match goal with
         | |- context [if ?c then _ else _] => destruct c; cbn [fst snd]
         | |- context [match dict_get ?d ?k ?v with _ => _ end] =>
             destruct (dict_get d k v); cbn [fst snd]
         | |- context [match len ?p with _ => _ end] =>
             destruct (len p); cbn [fst snd]
         | |- context [match send_fault ?s ?n with _ => _ end] =>
             destruct (send_fault s n); cbn [fst snd]
         end; discriminate.
Qed.

(** A loop that is still waiting after some arrivals goes on with the next
    ones; a loop that ended on the way ignores them. *)
Lemma receive_loop_app (websocket : WebSocket) (before after : list arrival) (w : world) :
  receive_loop websocket (before ++ after) w
  = match receive_loop websocket before w with
    | (w', Pending) => receive_loop websocket after w'
    | ended => ended
    end.
Proof.
  revert w. induction before as [|[message|e] rest IH]; intros w; try reflexivity.
  cbn [receive_loop app]. unfold bind.
  pose proof (on_message_ends websocket message w) as Hends.
  destruct (on_message websocket message w) as [w' [[|]| |]]; auto.
  now elim Hends.
Qed.

Lemma unparseable_raises (websocket : WebSocket) (w : world) :
  on_message websocket None w = (w, Raised JSONDecodeError).
Proof. reflexivity. Qed.

Lemma unknown_event_is_skipped (websocket : WebSocket) d (w : world) :
  known_event (dict_get d "event" JNull) = false ->
  on_message websocket (Some (JDict d)) w = (w, Done Continue).
Proof.
  unfold known_event. intros H.
  repeat (apply orb_false_iff in H; destruct H as [H ?]).
  run_message. now rewrite H, H0, H1, H2.
Qed.

Lemma start_is_logged (websocket : WebSocket) d sid (w : world) :
  dict_get d "event" JNull = JStr "start" ->
  get (dict_get d "start" (JDict [])) "streamSid" JNull = inr sid ->
  on_message websocket (Some (JDict d)) w
  = (printed w [stream_started; stream_sid_is sid], Done Continue).
Proof.
  intros Hevent Hsid. unfold on_message, json_loads, bind.
  cbn [get lift ret]. rewrite Hevent.
  cbn [eq_str String.eqb Ascii.eqb Bool.eqb andb get lift ret print fst snd].
  rewrite Hsid. unfold printed. cbn. now rewrite <- app_assoc.
Qed.

Lemma size_is_computed (payload : json) :
  measurable payload = true ->
  (if truthy payload then lift (len payload) else ret 0)
  = ret (size_of payload).
Proof.
  unfold measurable, size_of. destruct (truthy payload) eqn:T; [|reflexivity].
  destruct payload; cbn; try discriminate; reflexivity.
Qed.

Lemma media_is_echoed (websocket : WebSocket) d m (w : world) :
  dict_get d "event" JNull = JStr "media" ->
  dict_get d "media" (JDict []) = JDict m ->
  measurable (dict_get m "payload" JNull) = true ->
  send_fault websocket (attempts w) = None ->
  on_message websocket (Some (JDict d)) w
  = (mkWorld (stdout w ++ [received_audio (size_of (dict_get m "payload" JNull))])
             (sent w ++ [echo (dict_get d "streamSid" JNull) (dict_get m "payload" JNull)])
             (S (attempts w)),
     Done Continue).
Proof.
  intros Hevent Hmedia Hsize Hsend.
  unfold on_message, json_loads, bind.
  cbn [get lift ret]. rewrite Hevent.
  cbn [eq_str String.eqb Ascii.eqb Bool.eqb andb get lift ret]. rewrite Hmedia.
  cbn [get lift ret]. rewrite (size_is_computed _ Hsize).
  unfold ret, print, send_text. cbn [fst snd stdout sent attempts].
  now rewrite Hsend.
Qed.

Lemma media_send_fails (websocket : WebSocket) d m e (w : world) :
  dict_get d "event" JNull = JStr "media" ->
  dict_get d "media" (JDict []) = JDict m ->
  measurable (dict_get m "payload" JNull) = true ->
  send_fault websocket (attempts w) = Some e ->
  on_message websocket (Some (JDict d)) w
  = (mkWorld (stdout w ++ [received_audio (size_of (dict_get m "payload" JNull))])
             (sent w) (S (attempts w)),
     Raised e).
Proof.
  intros Hevent Hmedia Hsize Hsend.
  unfold on_message, json_loads, bind.
  cbn [get lift ret]. rewrite Hevent.
  cbn [eq_str String.eqb Ascii.eqb Bool.eqb andb get lift ret]. rewrite Hmedia.
  cbn [get lift ret]. rewrite (size_is_computed _ Hsize).
  unfold ret, print, send_text. cbn [fst snd stdout sent attempts].
  now rewrite Hsend.
Qed.

(** ** The streaming endpoint: the handler as a whole *)

(** The handler is the loop between two prints, with the [except] and
    [finally] clauses on the way out. *)
Lemma handler_of_loop (websocket : WebSocket) (w : world) :
  handle_media_stream websocket w
  = match receive_loop websocket (incoming websocket) (printed w [websocket_connected]) with
    | (w', Done _) => (printed w' [websocket_disconnected], Done tt)
    | (w', Raised e) =>
        if is_Exception e
        then (printed w' [websocket_error e; websocket_disconnected], Done tt)
        else (printed w' [websocket_disconnected], Raised e)
    | (w', Pending) => (w', Pending)
    end.
Proof.
  unfold handle_media_stream, try_except_finally, bind, print.
  change (mkWorld (stdout w ++ [websocket_connected]) (sent w) (attempts w))
    with (printed w [websocket_connected]).
  destruct (receive_loop websocket (incoming websocket) _) as [w' [[]|e|]];
    [reflexivity| |reflexivity].
  destruct (is_Exception e); [|reflexivity].
  unfold printed; cbn. now rewrite <- app_assoc.
Qed.

Lemma handler_arriving (websocket : WebSocket) (arrivals : list arrival) (w : world) :
  handle_media_stream (arriving websocket arrivals) w
  = match receive_loop websocket arrivals (printed w [websocket_connected]) with
    | (w', Done _) => (printed w' [websocket_disconnected], Done tt)
    | (w', Raised e) =>
        if is_Exception e
        then (printed w' [websocket_error e; websocket_disconnected], Done tt)
        else (printed w' [websocket_disconnected], Raised e)
    | (w', Pending) => (w', Pending)
    end.
Proof.
  rewrite handler_of_loop. cbn [incoming arriving].
  now rewrite receive_loop_arriving.
Qed.

(** The handler is waiting exactly when its loop is. *)
Lemma handler_waiting (websocket : WebSocket) (arrivals : list arrival) (w w' : world) :
  handle_media_stream (arriving websocket arrivals) w = (w', Pending) ->
  receive_loop websocket arrivals (printed w [websocket_connected]) = (w', Pending).
Proof.
  rewrite handler_arriving.
  destruct (receive_loop websocket arrivals _) as [w1 [[]|e|]]; try discriminate.
  - destruct (is_Exception e); discriminate.
  - now intros [= ->].
Qed.

Lemma size_of_text (p : str) : size_of (JStr p) = str_len p.
Proof. destruct p; reflexivity. Qed.

(** A run of media events on a connection whose sends succeed: a log line
    and an echo each, and the loop waits for more. *)
Lemma media_run (websocket : WebSocket) (streamSid : json) (payloads : list str) (w : world) :
  (forall n, send_fault websocket n = None) ->
  receive_loop websocket (media_frames streamSid payloads) w
  = (mkWorld (stdout w ++ map (fun p => received_audio (str_len p)) payloads)
             (sent w ++ map (fun p => echo streamSid (JStr p)) payloads)
             (attempts w + List.length payloads),
     Pending).
Proof.
  intros Hsend. revert w.
  induction payloads as [|p rest IH]; intros [out msgs n].
  - cbn. now rewrite !app_nil_r, Nat.add_0_r.
  - cbn [media_frames map receive_loop]. unfold bind.
    unfold media_event at 1.
    rewrite (media_is_echoed websocket _ [("payload", JStr p)]);
      [ | reflexivity | reflexivity | cbn; apply orb_true_r | apply Hsend ].
    fold (media_frames streamSid rest). rewrite IH.
    cbn [stdout sent attempts List.length dict_get lookup String.eqb Ascii.eqb Bool.eqb andb].
    rewrite size_of_text, <- !app_assoc, Nat.add_succ_r. reflexivity.
Qed.

(** A start event, a run of media events and a stop event. *)
Lemma whole_call (sid : str) (payloads : list str) :
  handle_media_stream
    (reliable (Text (Some (start_event sid))
               :: media_frames (JStr sid) payloads ++ [Text (Some stop_event)]))
    fresh
  = (mkWorld ([websocket_connected; stream_started; stream_sid_is (JStr sid)]
              ++ map (fun p => received_audio (str_len p)) payloads
              ++ [stream_stopped; websocket_disconnected])
             (map (fun p => echo (JStr sid) (JStr p)) payloads)
             (List.length payloads),
     Done tt).
Proof.
  rewrite handler_of_loop. cbn [incoming reliable].
  cbn [receive_loop]. unfold bind at 1. unfold start_event.
  rewrite (start_is_logged _ _ (JStr sid)); [|reflexivity|reflexivity].
  rewrite receive_loop_app, media_run; [|reflexivity].
  cbn. unfold printed; cbn. now rewrite <- !app_assoc.
Qed.

(** ** The claims on the streaming endpoint *)

(** C3, as amended.  A JSON object whose event name is none of the four
    the handler knows (or is missing) is skipped without a line printed: the
    handler behaves as if the message had not arrived.  An unparseable
    message ends the session instead: what arrives after it is never
    looked at, the handler is not left waiting, and on a session that was
    live it prints the error and the disconnection and returns. *)
Theorem unknown_event_skipped_unparseable_ends
    (websocket : WebSocket) (before after : list arrival) (w : world) :
  (forall d,
      known_event (dict_get d "event" JNull) = false ->
      handle_media_stream (arriving websocket (before ++ Text (Some (JDict d)) :: after)) w
      = handle_media_stream (arriving websocket (before ++ after)) w)
  /\ handle_media_stream (arriving websocket (before ++ Text None :: after)) w
     = handle_media_stream (arriving websocket (before ++ [Text None])) w
  /\ snd (handle_media_stream (arriving websocket (before ++ Text None :: after)) w)
     <> Pending
  /\ (forall w',
         handle_media_stream (arriving websocket before) w = (w', Pending) ->
         handle_media_stream (arriving websocket (before ++ Text None :: after)) w
         = (printed w' [websocket_error JSONDecodeError; websocket_disconnected],
            Done tt)).
Proof.
  repeat split.
  - intros d Hunknown. rewrite !handler_arriving, !receive_loop_app.
    cbn [receive_loop]. unfold bind.
    destruct (receive_loop websocket before _) as [w' [[]|e|]]; try reflexivity.
    now rewrite (unknown_event_is_skipped _ _ _ Hunknown).
  - rewrite !handler_arriving, !receive_loop_app.
    destruct (receive_loop websocket before _) as [w' [[]|e|]]; reflexivity.
  - rewrite handler_arriving, receive_loop_app.
    destruct (receive_loop websocket before _) as [w' [[]|e|]]; try discriminate.
    destruct (is_Exception e); discriminate.
  - intros w' Hlive. apply handler_waiting in Hlive.
    now rewrite handler_arriving, receive_loop_app, Hlive.
Qed.

(** C3 fails as stated: after an unparseable message the session is over,
    the media and stop events behind it are not processed. *)
Lemma unparseable_message_ends_session :
  handle_media_stream
    (reliable [Text None;
               Text (Some (media_event (JStr "S1") (JStr "AAAA")));
               Text (Some stop_event)])
    fresh
  = (mkWorld [websocket_connected; websocket_error JSONDecodeError;
              websocket_disconnected] [] 0,
     Done tt).
Proof. reflexivity. Qed.

(** C5, as amended.  The handler keeps no table of streams and rejects no
    start event: on a live session, whatever arrived before (a start event
    with the same stream identifier included), a start event whose [start]
    field is absent or an object prints the start line and the identifier
    found, sends nothing, and leaves the session live. *)
Theorem start_is_never_rejected
    (websocket : WebSocket) (before : list arrival) d (sid : json) (w w' : world) :
  handle_media_stream (arriving websocket before) w = (w', Pending) ->
  dict_get d "event" JNull = JStr "start" ->
  get (dict_get d "start" (JDict [])) "streamSid" JNull = inr sid ->
  handle_media_stream (arriving websocket (before ++ [Text (Some (JDict d))])) w
  = (printed w' [stream_started; stream_sid_is sid], Pending).
Proof.
  intros Hlive Hevent Hsid. apply handler_waiting in Hlive.
  rewrite handler_arriving, receive_loop_app, Hlive.
  cbn [receive_loop]. unfold bind.
  now rewrite (start_is_logged _ _ _ _ Hevent Hsid).
Qed.

(** C5 fails as stated: a second start for the same stream identifier is
    handled like the first, and the session goes on. *)
Lemma duplicate_start_is_accepted :
  handle_media_stream
    (reliable [Text (Some (start_event "S1")); Text (Some (start_event "S1"))])
    fresh
  = (mkWorld [websocket_connected;
              stream_started; stream_sid_is (JStr "S1");
              stream_started; stream_sid_is (JStr "S1")] [] 0,
     Pending).
Proof. reflexivity. Qed.

Lemma start_is_never_rejected_witness :
  handle_media_stream
    (arriving (reliable []) ([Text (Some (start_event "S1"))] ++ [Text (Some (start_event "S1"))]))
    fresh
  = (printed (mkWorld [websocket_connected; stream_started; stream_sid_is (JStr "S1")] [] 0)
       [stream_started; stream_sid_is (JStr "S1")],
     Pending).
Proof.
  apply (start_is_never_rejected (reliable []) [Text (Some (start_event "S1"))]
           [("event", JStr "start"); ("start", JDict [("streamSid", JStr "S1")])]).
  - reflexivity.
  - reflexivity.
  - reflexivity.
Defined.



Lemma unknown_event_skipped_unparseable_ends_witness :
  handle_media_stream
    (arriving (reliable [])
       ([Text (Some (start_event "S1"))]
        ++ Text (Some (JDict [("event", JStr "mark")])) :: [Text (Some stop_event)]))
    fresh
  = handle_media_stream
      (arriving (reliable []) ([Text (Some (start_event "S1"))] ++ [Text (Some stop_event)]))
      fresh.
Proof.
  apply (proj1 (unknown_event_skipped_unparseable_ends (reliable [])
                  [Text (Some (start_event "S1"))] [Text (Some stop_event)] fresh)).
  reflexivity.
Defined.

(** C7, as amended.  On start, five media events and stop, with sends that
    succeed, the handler returns: it has printed the start, the five sizes
    in order, the stop and the disconnection, and it has written five
    messages, the echoes of the five payloads in their order of arrival, all
    of them to the carrier's own connection. *)
Theorem start_five_media_stop (sid p1 p2 p3 p4 p5 : str) :
  handle_media_stream
    (reliable (Text (Some (start_event sid))
               :: media_frames (JStr sid) [p1; p2; p3; p4; p5]
               ++ [Text (Some stop_event)]))
    fresh
  = (mkWorld [websocket_connected; stream_started; stream_sid_is (JStr sid);
              received_audio (str_len p1); received_audio (str_len p2);
              received_audio (str_len p3); received_audio (str_len p4);
              received_audio (str_len p5);
              stream_stopped; websocket_disconnected]
             [echo (JStr sid) (JStr p1); echo (JStr sid) (JStr p2);
              echo (JStr sid) (JStr p3); echo (JStr sid) (JStr p4);
              echo (JStr sid) (JStr p5)]
             5,
     Done tt).
Proof. exact (whole_call sid [p1; p2; p3; p4; p5]). Qed.

(** C7 fails as stated: the call ends and five frames leave in order, but
    towards the carrier; nothing is forwarded to a backend. *)
Lemma five_frames_go_back_to_the_carrier :
  let call :=
    handle_media_stream
      (reliable (Text (Some (start_event "S1"))
                 :: media_frames (JStr "S1") ["AAAA"; "BBBB"; "CCCC"; "DDDD"; "EEEE"]
                 ++ [Text (Some stop_event)]))
      fresh in
  snd call = Done tt
  /\ to Backend (fst call) = []
  /\ to Carrier (fst call)
     = [media_event (JStr "S1") (JStr "AAAA"); media_event (JStr "S1") (JStr "BBBB");
        media_event (JStr "S1") (JStr "CCCC"); media_event (JStr "S1") (JStr "DDDD");
        media_event (JStr "S1") (JStr "EEEE")].
Proof. repeat split. Qed.

(** C9.  An exception raised in the loop is caught: the handler prints it,
    prints the disconnection and returns.  So it is for the three failures
    of a live session: a receive that raises, a text that [json.loads]
    refuses, and a send that raises. *)
Theorem per_call_errors_are_caught
    (websocket : WebSocket) (before after : list arrival) (w w' : world) :
  handle_media_stream (arriving websocket before) w = (w', Pending) ->
  (forall e,
      is_Exception e = true ->
      handle_media_stream (arriving websocket (before ++ Fault e :: after)) w
      = (printed w' [websocket_error e; websocket_disconnected], Done tt))
  /\ handle_media_stream (arriving websocket (before ++ Text None :: after)) w
     = (printed w' [websocket_error JSONDecodeError; websocket_disconnected], Done tt)
  /\ (forall streamSid payload e,
         measurable payload = true ->
         send_fault websocket (attempts w') = Some e ->
         is_Exception e = true ->
         handle_media_stream
           (arriving websocket (before ++ Text (Some (media_event streamSid payload)) :: after)) w
         = (mkWorld (stdout w' ++ [received_audio (size_of payload);
                                   websocket_error e; websocket_disconnected])
                    (sent w') (S (attempts w')),
            Done tt))
  /\ (forall arrivals w'' e,
         receive_loop websocket arrivals (printed w [websocket_connected]) = (w'', Raised e) ->
         is_Exception e = true ->
         handle_media_stream (arriving websocket arrivals) w
         = (printed w'' [websocket_error e; websocket_disconnected], Done tt)).
Proof.
  intros Hlive. apply handler_waiting in Hlive. repeat split.
  - intros e He. rewrite handler_arriving, receive_loop_app, Hlive.
    cbn [receive_loop]. unfold raise. now rewrite He.
  - now rewrite handler_arriving, receive_loop_app, Hlive.
  - intros streamSid payload e Hsize Hsend He.
    rewrite handler_arriving, receive_loop_app, Hlive.
    cbn [receive_loop]. unfold bind, media_event.
    rewrite (media_send_fails websocket _ [("payload", payload)] e);
      [ | reflexivity | reflexivity | exact Hsize | exact Hsend ].
    rewrite He. unfold printed.
    cbn [stdout sent attempts dict_get lookup String.eqb Ascii.eqb Bool.eqb andb].
    now rewrite <- app_assoc.
  - intros arrivals w'' e Hloop He.
    now rewrite handler_arriving, Hloop, He.
Qed.

Lemma per_call_errors_are_caught_witness :
  handle_media_stream
    (arriving (reliable [])
       ([Text (Some (start_event "S1"))] ++ Fault WebSocketDisconnect :: []))
    fresh
  = (printed (mkWorld [websocket_connected; stream_started; stream_sid_is (JStr "S1")] [] 0)
       [websocket_error WebSocketDisconnect; websocket_disconnected],
     Done tt).
Proof.
  apply (proj1 (per_call_errors_are_caught (reliable [])
                  [Text (Some (start_event "S1"))] [] fresh _ eq_refl)).
  reflexivity.
Defined.

(** C10, as amended.  For a received media event whose [media] field is an
    object with a [payload] that is false or has a length (a string, an
    array, an object), and whose send succeeds, the handler prints the size
    and writes exactly one message to the same connection before it turns to
    the next arrival: the event [media], the payload as received, and the
    top-level [streamSid] of the event, or null when there is none. *)
Theorem media_event_is_echoed_once
    (websocket : WebSocket) d m (payload : json) (rest : list arrival) (w : world) :
  dict_get d "event" JNull = JStr "media" ->
  lookup "media" d = Some (JDict m) ->
  lookup "payload" m = Some payload ->
  measurable payload = true ->
  send_fault websocket (attempts w) = None ->
  receive_loop websocket (Text (Some (JDict d)) :: rest) w
  = receive_loop websocket rest
      (mkWorld (stdout w ++ [received_audio (size_of payload)])
               (sent w ++ [(Carrier,
                            JDict [("event", JStr "media");
                                   ("streamSid", dict_get d "streamSid" JNull);
                                   ("media", JDict [("payload", payload)])])])
               (S (attempts w))).
Proof.
  intros Hevent Hmedia Hpayload Hsize Hsend.
  assert (Hp : dict_get m "payload" JNull = payload)
    by (unfold dict_get; now rewrite Hpayload).
  cbn [receive_loop]. unfold bind.
  rewrite (media_is_echoed websocket d m); try assumption.
  - now rewrite Hp.
  - unfold dict_get. now rewrite Hmedia.
  - now rewrite Hp.
Qed.

(** C10 fails as stated: a payload that is present but is a number other
    than zero has no length; the size computation raises, nothing is sent,
    and the session ends. *)
Lemma numeric_payload_is_not_echoed :
  handle_media_stream
    (reliable [Text (Some (media_event (JStr "S1") (JInt 5)));
               Text (Some (media_event (JStr "S1") (JStr "AAAA")))])
    fresh
  = (mkWorld [websocket_connected; websocket_error TypeError; websocket_disconnected]
             [] 0,
     Done tt).
Proof. reflexivity. Qed.

Lemma media_event_is_echoed_once_witness :
  receive_loop (reliable [])
    [Text (Some (JDict [("event", JStr "media");
                        ("media", JDict [("payload", JStr "AAAA")])]))]
    fresh
  = (mkWorld [received_audio 4]
             [(Carrier,
               JDict [("event", JStr "media"); ("streamSid", JNull);
                      ("media", JDict [("payload", JStr "AAAA")])])]
             1,
     Pending).
Proof.
  apply (media_event_is_echoed_once (reliable [])
           [("event", JStr "media"); ("media", JDict [("payload", JStr "AAAA")])]
           [("payload", JStr "AAAA")] (JStr "AAAA") [] fresh).
  - reflexivity.
  - reflexivity.
  - reflexivity.
  - reflexivity.
  - reflexivity.
Defined.

End StreamFacts.

(** ** Replacement and occurrences *)

Module ReplaceFacts.

Import Py Shapes StrFacts.
Local Open Scope string_scope.

Lemma avoids_head (x c : ascii) (s : str) :
  avoids x (String c s) = true -> Ascii.eqb x c = false /\ avoids x s = true.
Proof.
  cbn. intros H. apply andb_true_iff in H as [H1 H2]. split; [|exact H2].
  rewrite Ascii.eqb_sym. now apply negb_true_iff in H1.
Qed.

(** A text without the first character of a pattern holds no occurrence. *)
Lemma absent_without_head (q0 : ascii) (qt b : str) :
  avoids q0 b = true -> contains (String q0 qt) b = false.
Proof.
  induction b as [|c b IH]; intros H; [reflexivity|].
  apply avoids_head in H as [Hc Hb].
  rewrite contains_unfold, (IH Hb). cbn. now rewrite Hc.
Qed.

(** Text put in front that lacks the first character of a pattern adds no
    occurrence. *)
Lemma contains_after (q0 : ascii) (qt new rest : str) :
  avoids q0 new = true ->
  contains (String q0 qt) (new ++ rest) = contains (String q0 qt) rest.
Proof.
  induction new as [|c new IH]; intros H; [reflexivity|].
  apply avoids_head in H as [Hc Hnew].
  change (String c new ++ rest) with (String c (new ++ rest)).
  rewrite contains_unfold, (IH Hnew). cbn [startswith]. now rewrite Hc.
Qed.

Lemma startswith_app_left (q a : str) (b0 : ascii) (b : str) :
  avoids b0 q = true ->
  startswith q (a ++ String b0 b) = startswith q a.
Proof.
  revert a. induction q as [|x q IH]; intros a H; [now destruct a|].
  apply avoids_head in H as [Hx Hq].
  destruct a as [|c a]; cbn.
  - rewrite Ascii.eqb_sym. now rewrite Hx.
  - now rewrite (IH a Hq).
Qed.

(** Text put behind adds no occurrence when it lacks the first character of
    the pattern and the pattern lacks its own first character. *)
Lemma contains_before (q0 : ascii) (qt a : str) (b0 : ascii) (b : str) :
  avoids q0 (String b0 b) = true ->
  avoids b0 (String q0 qt) = true ->
  contains (String q0 qt) a = false ->
  contains (String q0 qt) (a ++ String b0 b) = false.
Proof.
  intros Hb Hq. induction a as [|c a IH]; intros H.
  - now apply absent_without_head.
  - rewrite contains_unfold in H. apply orb_false_iff in H as [H1 H2].
    change (String c a ++ String b0 b) with (String c (a ++ String b0 b)).
    rewrite contains_unfold, (IH H2), orb_false_r.
    change (String c (a ++ String b0 b)) with (String c a ++ String b0 b).
    now rewrite startswith_app_left.
Qed.

Section OneReplacement.

Variables (h0 n0 : ascii) (tl new' : str).

Let old : str := String h0 tl.
Let new : str := String n0 new'.

(** A prefix test for a text that has neither the first character of [old]
    nor the first of [new] sees the same before and after replacement. *)
Lemma startswith_through (p t : str) :
  avoids h0 p = true ->
  avoids n0 p = true ->
  startswith p (replace_from 0 old new t) = startswith p t.
Proof.
  revert t. induction p as [|a p IH]; intros t Hh Hn.
  - now rewrite !startswith_empty.
  - apply avoids_head in Hh as [Hah Hph]. apply avoids_head in Hn as [Han Hpn].
    destruct t as [|c t]; [reflexivity|].
    cbn [replace_from]. destruct (startswith old (String c t)) eqn:E.
    + unfold old in E. cbn [startswith] in E.
      apply andb_true_iff in E as [E _]. apply Ascii.eqb_eq in E. subst c.
      unfold new. cbn [append startswith].
      rewrite (Ascii.eqb_sym a n0), Han, (Ascii.eqb_sym a h0), Hah. reflexivity.
    + cbn [startswith]. now rewrite (IH t Hph Hpn).
Qed.

Hypothesis new_lacks_h0 : avoids h0 new = true.
Hypothesis tl_lacks_h0 : avoids h0 tl = true.
Hypothesis tl_lacks_n0 : avoids n0 tl = true.

(** After the replacement no occurrence of [old] is left. *)
Lemma occurrences_removed (s : str) (k : nat) :
  contains old (replace_from k old new s) = false.
Proof.
  revert k. induction s as [|c s IH]; intros k; [reflexivity|].
  destruct k as [|k]; cbn [replace_from]; [|apply IH].
  destruct (startswith old (String c s)) eqn:E.
  - unfold old at 1. rewrite (contains_after _ _ _ _ new_lacks_h0). apply IH.
  - rewrite contains_unfold, IH, orb_false_r.
    unfold old at 1. cbn [startswith].
    rewrite (startswith_through _ _ tl_lacks_h0 tl_lacks_n0).
    exact E.
Qed.

End OneReplacement.

(** A replacement creates no occurrence of a second pattern [q0 :: qt] when
    [new] lacks [q0] and [qt] lacks the first characters of [old] and [new]. *)
Lemma no_occurrence_created (q0 h0 n0 : ascii) (qt tl new' s : str) (k : nat) :
  avoids q0 (String n0 new') = true ->
  avoids h0 qt = true ->
  avoids n0 qt = true ->
  contains (String q0 qt) s = false ->
  contains (String q0 qt) (replace_from k (String h0 tl) (String n0 new') s) = false.
Proof.
  intros Hnew Hh Hn. revert k. induction s as [|c s IH]; intros k H; [reflexivity|].
  rewrite contains_unfold in H. apply orb_false_iff in H as [H1 H2].
  destruct k as [|k]; cbn [replace_from]; [|now apply IH].
  destruct (startswith (String h0 tl) (String c s)) eqn:E.
  - rewrite (contains_after _ _ _ _ Hnew). now apply IH.
  - rewrite contains_unfold, (IH 0 H2), orb_false_r.
    cbn [startswith]. rewrite (startswith_through _ _ _ _ _ _ Hh Hn).
    exact H1.
Qed.

(** The two replacements of [handle_incoming_call], followed by the path:
    the result holds neither scheme marker. *)
Lemma upgraded_url_has_no_marker (base : str) :
  let u := replace "https://" "wss://" (replace "http://" "ws://" base) ++ "media-stream" in
  contains "http://" u = false /\ contains "https://" u = false.
Proof.
  cbn zeta. unfold replace. split.
  - apply contains_before; [reflexivity|reflexivity|].
    apply no_occurrence_created; [reflexivity|reflexivity|reflexivity|].
    apply (occurrences_removed "h" "w" "ttp://" "s://"); reflexivity.
  - apply contains_before; [reflexivity|reflexivity|].
    apply (occurrences_removed "h" "w" "ttps://" "ss://"); reflexivity.
Qed.

End ReplaceFacts.

(** ** The control endpoint: what the claims leave out *)

Module WebhookCover.

Import Py Eff Twilio Webhook Liveness Notes Shapes StrFacts ReplaceFacts WebhookFacts.
Local Open Scope string_scope.

Lemma append_assoc_text (a b c : str) : a ++ (b ++ c) = (a ++ b) ++ c.
Proof. induction a as [|x a IH]; cbn; [reflexivity|now rewrite IH]. Qed.

Lemma ascii_is_utf8 (b : bytes) :
  is_ascii_text b = true -> utf8_valid_from 0 128 191 b = true.
Proof.
  induction b as [|c b IH]; intros H; [reflexivity|].
  cbn in H. apply andb_true_iff in H as [Hc Hb].
  cbn [utf8_valid_from]. cbv zeta. rewrite Hc. now apply IH.
Qed.

(** X1.  A request whose form parses and whose body decodes is answered as
    the library decides, and in no other way.  Without a secret, or when the
    library returns true on the URL, the decoded body and the signature the
    request carries, the answer is 200 with a TwiML document that is not
    empty and the XML content type; when the library returns false it is
    403 with no body and no content type; when the call of the library
    raises, the exception leaves the handler and there is no answer. *)
Theorem answer_follows_the_library
    (validate : validator) (env : environ) (request : Request)
    (items : list (str * str)) (text signature : str) (w : world) :
  form request = inr items ->
  decode (body request) = inr text ->
  carries request signature ->
  exists document : VoiceResponse,
    document <> []
    /\ snd (handle_incoming_call validate env request w)
       = if configured env then
           match validate (token_of env) (url request) text signature with
           | inr true => Done (mkResponse 200 (Xml document) (Some "application/xml"))
           | inr false => Done (mkResponse 403 Empty None)
           | inl e => Raised e
           end
         else Done (mkResponse 200 (Xml document) (Some "application/xml")).
Proof.
  intros Hform Hdecode Hcarries. apply carried_signature_is_read in Hcarries.
  rewrite (handler_reaches_validator _ _ _ _ _ _ Hform Hdecode).
  unfold validate_twilio_request, configured, token_of.
  unfold signature_of in Hcarries. rewrite Hcarries.
  eexists. split.
  2:{ destruct (truthy_env (TWILIO_AUTH_TOKEN env)); cbn [negb].
      - rewrite lift_answer.
        destruct (validate _ _ _ _) as [e|[|]]; cbn [answer negb snd]; reflexivity.
      - unfold bind, print, ret. cbn [negb snd]. reflexivity. }
  destruct (simple_voice_test env); discriminate.
Qed.

Lemma answer_follows_the_library_witness :
  exists document : VoiceResponse,
    document <> []
    /\ snd (handle_incoming_call library secret_set (empty_request "bad") fresh)
       = if configured secret_set then
           match library (token_of secret_set) (url (empty_request "bad")) "" "bad" with
           | inr true => Done (mkResponse 200 (Xml document) (Some "application/xml"))
           | inr false => Done (mkResponse 403 Empty None)
           | inl e => Raised e
           end
         else Done (mkResponse 200 (Xml document) (Some "application/xml")).
Proof.
  apply (answer_follows_the_library library secret_set (empty_request "bad") [] "" "bad" fresh).
  - reflexivity.
  - reflexivity.
  - left. exists [("content-type", "application/x-www-form-urlencoded")], [].
    split; [reflexivity|]. intros v [H|[]]. discriminate.
Defined.

(** X2.  Without a secret, a request whose form parses and whose body is
    made of ASCII bytes (a form-encoded body is) is always served: the
    handler does not raise, it answers 200 with a document. *)
Theorem ascii_body_is_served_without_secret
    (validate : validator) (env : environ) (request : Request)
    (items : list (str * str)) (w : world) :
  form request = inr items ->
  is_ascii_text (body request) = true ->
  configured env = false ->
  exists document : VoiceResponse,
    document <> []
    /\ snd (handle_incoming_call validate env request w)
       = Done (mkResponse 200 (Xml document) (Some "application/xml")).
Proof.
  intros Hform Hascii Hoff.
  assert (Hdecode : decode (body request) = inr (body request))
    by (unfold decode; now rewrite (ascii_is_utf8 _ Hascii)).
  rewrite (handler_reaches_validator _ _ _ _ _ _ Hform Hdecode).
  unfold validate_twilio_request. unfold configured in Hoff. rewrite Hoff.
  eexists. split; [|reflexivity].
  destruct (simple_voice_test env); discriminate.
Qed.

Lemma ascii_body_is_served_without_secret_witness :
  exists document : VoiceResponse,
    document <> []
    /\ snd (handle_incoming_call library secret_unset (sample_request "bad") fresh)
       = Done (mkResponse 200 (Xml document) (Some "application/xml")).
Proof.
  apply (ascii_body_is_served_without_secret library secret_unset (sample_request "bad")
           [("CallSid", "CA1"); ("From", "+15550100"); ("To", "+15550199")] fresh);
    reflexivity.
Defined.

(** X3.  A body that is no UTF-8 text is never validated and never
    answered: whatever the secret, the signature and the library, the handler
    prints the call details and raises UnicodeDecodeError. *)
Theorem undecodable_body_is_not_answered
    (validate : validator) (env : environ) (request : Request)
    (items : list (str * str)) (w : world) :
  form request = inr items ->
  utf8_valid_from 0 128 191 (body request) = false ->
  handle_incoming_call validate env request w
  = (printed w [incoming_call_received;
                call_from (form_get items "From" "Unknown");
                call_to (form_get items "To" "Unknown");
                call_sid (form_get items "CallSid" "Unknown")],
     Raised UnicodeDecodeError).
Proof.
  intros Hform H. unfold handle_incoming_call, bind, print.
  cbn [fst snd stdout sent attempts]. rewrite Hform. cbn [lift ret].
  unfold decode. rewrite H. cbn [lift raise].
  unfold printed; cbn. now rewrite <- !app_assoc.
Qed.

Lemma undecodable_body_is_not_answered_witness :
  handle_incoming_call library secret_unset broken_request fresh
  = (printed fresh [incoming_call_received; call_from "Unknown"; call_to "Unknown";
                    call_sid "Unknown"],
     Raised UnicodeDecodeError).
Proof.
  apply (undecodable_body_is_not_answered library secret_unset broken_request [] fresh).
  - reflexivity.
  - reflexivity.
Defined.

(** X17.  A form that the framework cannot parse is the end of the request:
    the handler has printed its first line only, the exception of the parser
    leaves it, and neither the body nor the signature is looked at. *)
Theorem unparsed_form_is_not_answered
    (validate : validator) (env : environ) (request : Request) (e : exn) (w : world) :
  form request = inl e ->
  handle_incoming_call validate env request w
  = (printed w [incoming_call_received], Raised e).
Proof.
  intros Hform. unfold handle_incoming_call, bind, print.
  cbn [fst snd stdout sent attempts]. now rewrite Hform.
Qed.

Lemma unparsed_form_is_not_answered_witness :
  handle_incoming_call library secret_set
    (mkRequest sample_url "https://bridge.example/"
       [("content-type", "multipart/form-data"); ("x-twilio-signature", "bad")]
       sample_body (inl HTTPException))
    fresh
  = (printed fresh [incoming_call_received], Raised HTTPException).
Proof.
  apply (unparsed_form_is_not_answered library secret_set
           (mkRequest sample_url "https://bridge.example/"
              [("content-type", "multipart/form-data"); ("x-twilio-signature", "bad")]
              sample_body (inl HTTPException))
           HTTPException fresh).
  reflexivity.
Defined.

(** X4.  With SIMPLE_VOICE_TEST set to true in any letter case, a request
    whose form parses, whose body decodes and which passes the validator
    gets two spoken sentences and nothing else: no
    stream is started and no pause is held, whatever the base URL. *)
Theorem simple_voice_document
    (validate : validator) (env : environ) (request : Request)
    (items : list (str * str)) (text : str) (w : world) :
  form request = inr items ->
  decode (body request) = inr text ->
  accepts validate env request text ->
  simple_voice_test env = true ->
  exists first second : str,
    snd (handle_incoming_call validate env request w)
    = Done (mkResponse 200 (Xml [Say first; Say second]) (Some "application/xml"))
    /\ stream_urls_of (snd (handle_incoming_call validate env request w)) = [].
Proof.
  intros Hform Hdecode Hpass Hmode.
  destruct (validator_prints_and_answers validate env request text) as (ls & r & Hrun).
  unfold accepts in Hpass. rewrite Hrun in Hpass. cbn [snd] in Hpass.
  rewrite (handler_reaches_validator _ _ _ _ _ _ Hform Hdecode), Hrun, Hpass.
  cbn [negb snd]. rewrite Hmode.
  do 2 eexists. split; reflexivity.
Qed.

Lemma simple_voice_document_witness :
  exists first second : str,
    snd (handle_incoming_call library simple_mode (sample_request "bad") fresh)
    = Done (mkResponse 200 (Xml [Say first; Say second]) (Some "application/xml"))
    /\ stream_urls_of (snd (handle_incoming_call library simple_mode
                              (sample_request "bad") fresh)) = [].
Proof.
  apply (simple_voice_document library simple_mode (sample_request "bad")
           [("CallSid", "CA1"); ("From", "+15550100"); ("To", "+15550199")]
           sample_body fresh); reflexivity.
Defined.

(** The stream URL of an accepted request in streaming mode. *)
Lemma stream_url_of_accepted (validate : validator) env request items text (w : world) :
  form request = inr items ->
  decode (body request) = inr text ->
  accepts validate env request text ->
  simple_voice_test env = false ->
  stream_urls_of (snd (handle_incoming_call validate env request w))
  = [replace "https://" "wss://" (replace "http://" "ws://" (base_url request))
     ++ "media-stream"].
Proof.
  intros Hform Hdecode Hpass Hmode.
  destruct (validator_prints_and_answers validate env request text) as (ls & r & Hrun).
  unfold accepts in Hpass. rewrite Hrun in Hpass. cbn [snd] in Hpass.
  rewrite (handler_reaches_validator _ _ _ _ _ _ Hform Hdecode), Hrun, Hpass.
  cbn [negb snd]. now rewrite Hmode.
Qed.

(** X5.  A base URL that holds neither [http://] nor [https://] (one that is
    already a WebSocket URL, say) is used as it is: the stream URL is the base
    URL followed by [media-stream]. *)
Theorem other_base_url_is_kept
    (validate : validator) (env : environ) (request : Request)
    (items : list (str * str)) (text : str) (w : world) :
  form request = inr items ->
  decode (body request) = inr text ->
  accepts validate env request text ->
  simple_voice_test env = false ->
  contains "http://" (base_url request) = false ->
  contains "https://" (base_url request) = false ->
  stream_urls_of (snd (handle_incoming_call validate env request w))
  = [base_url request ++ "media-stream"].
Proof.
  intros Hform Hdecode Hpass Hmode H1 H2.
  rewrite (stream_url_of_accepted _ _ _ _ _ _ Hform Hdecode Hpass Hmode).
  unfold replace. now rewrite (replace_absent _ _ _ H1), (replace_absent _ _ _ H2).
Qed.

(** X6.  Whatever the base URL of an accepted request in streaming mode, the
    one stream URL of the document holds no [http://] and no [https://]
    anywhere: every occurrence has been rewritten, not only the scheme. *)
Theorem stream_url_has_no_http_marker
    (validate : validator) (env : environ) (request : Request)
    (items : list (str * str)) (text : str) (w : world) :
  form request = inr items ->
  decode (body request) = inr text ->
  accepts validate env request text ->
  simple_voice_test env = false ->
  exists u : str,
    stream_urls_of (snd (handle_incoming_call validate env request w)) = [u]
    /\ contains "http://" u = false
    /\ contains "https://" u = false.
Proof.
  intros Hform Hdecode Hpass Hmode.
  rewrite (stream_url_of_accepted _ _ _ _ _ _ Hform Hdecode Hpass Hmode).
  eexists. split; [reflexivity|]. apply upgraded_url_has_no_marker.
Qed.

Lemma other_base_url_is_kept_witness :
  stream_urls_of
    (snd (handle_incoming_call library secret_unset (bare_request "wss://bridge.example/")
            fresh))
  = ["wss://bridge.example/media-stream"].
Proof.
  apply (other_base_url_is_kept library secret_unset (bare_request "wss://bridge.example/")
           [] sample_body fresh); reflexivity.
Defined.

Lemma stream_url_has_no_http_marker_witness :
  exists u : str,
    stream_urls_of
      (snd (handle_incoming_call library secret_unset
              (bare_request "https://http://bridge.example/") fresh))
    = [u]
    /\ contains "http://" u = false
    /\ contains "https://" u = false.
Proof.
  apply (stream_url_has_no_http_marker library secret_unset
           (bare_request "https://http://bridge.example/") [] sample_body fresh);
    reflexivity.
Defined.

(** X7.  The stream URL leads to the path that the root endpoint announces
    for the media stream: for a base URL [scheme://authority/] with scheme
    http or https, it is the authority under the streaming scheme followed
    by that path. *)
Theorem stream_url_targets_announced_path
    (validate : validator) (env : environ) (request : Request)
    (items : list (str * str)) (text scheme authority : str)
    (phone : option str) (w : world) :
  form request = inr items ->
  decode (body request) = inr text ->
  accepts validate env request text ->
  simple_voice_test env = false ->
  scheme = "http" \/ scheme = "https" ->
  base_url request = scheme ++ "://" ++ authority ++ "/" ->
  contains "://" (authority ++ "/") = false ->
  exists path : str,
    announced_path phone "media_stream" = inr (JStr path)
    /\ stream_urls_of (snd (handle_incoming_call validate env request w))
       = [streaming_scheme scheme ++ "://" ++ authority ++ path].
Proof.
  intros Hform Hdecode Hpass Hmode Hscheme Hbase Hrest.
  exists "/media-stream". split; [reflexivity|].
  rewrite (stream_url_of_accepted _ _ _ _ _ _ Hform Hdecode Hpass Hmode), Hbase.
  destruct Hscheme as [-> | ->].
  - change ("http" ++ "://" ++ authority ++ "/") with ("http://" ++ (authority ++ "/")).
    rewrite (upgrade_http _ Hrest). cbn [streaming_scheme String.eqb Ascii.eqb Bool.eqb andb].
    cbn [append]. do 6 f_equal. rewrite <- !append_assoc_text. reflexivity.
  - change ("https" ++ "://" ++ authority ++ "/") with ("https://" ++ (authority ++ "/")).
    rewrite (upgrade_https _ Hrest). cbn [streaming_scheme String.eqb Ascii.eqb Bool.eqb andb].
    cbn [append]. do 7 f_equal. rewrite <- !append_assoc_text. reflexivity.
Qed.

Lemma stream_url_targets_announced_path_witness :
  exists path : str,
    announced_path None "media_stream" = inr (JStr path)
    /\ stream_urls_of
         (snd (handle_incoming_call library secret_unset (sample_request "bad") fresh))
       = [streaming_scheme "https" ++ "://" ++ "bridge.example" ++ path].
Proof.
  apply (stream_url_targets_announced_path library secret_unset (sample_request "bad")
           [("CallSid", "CA1"); ("From", "+15550100"); ("To", "+15550199")]
           sample_body "https" "bridge.example" None fresh).
  - reflexivity.
  - reflexivity.
  - reflexivity.
  - reflexivity.
  - right; reflexivity.
  - reflexivity.
  - reflexivity.
Defined.

(** X8.  When the liveness endpoint reports [twilio_configured], both the
    secret and the phone number are set and not empty, the phone number is
    reported as it is, and signature validation is on: the validator prints
    no warning, hands the URL, the body and the signature that the request
    carries to the library under that secret, and ends as that call does,
    with its verdict or with its exception. *)
Theorem configured_health_means_validation
    (validate : validator) (env : environ) (phone : option str)
    (request : Request) (body signature : str) (w : world) :
  get (health_check env phone) "twilio_configured" JNull = inr (JBool true) ->
  carries request signature ->
  exists token number : str,
    TWILIO_AUTH_TOKEN env = Some token /\ token <> ""
    /\ phone = Some number /\ number <> ""
    /\ get (health_check env phone) "phone_number" JNull = inr (JStr number)
    /\ validate_twilio_request validate env request body w
       = (w, answer (validate token (url request) body signature)).
Proof.
  unfold health_check, get, dict_get. cbn [lookup String.eqb Ascii.eqb Bool.eqb andb].
  intros H Hcarries. apply carried_signature_is_read in Hcarries.
  injection H as H. unfold and_env in H.
  destruct (TWILIO_AUTH_TOKEN env) as [token|] eqn:Htoken; [|discriminate].
  destruct (truthy_env (Some token)) eqn:Tt; [|congruence].
  destruct phone as [number|]; [|discriminate].
  exists token, number.
  assert (Hn : forall s, truthy_env (Some s) = true -> s <> "").
  { intros s Hs. cbn in Hs. apply negb_true_iff in Hs. now apply String.eqb_neq. }
  repeat split; auto.
  unfold validate_twilio_request. rewrite Htoken, Tt. cbn [negb].
  unfold signature_of in Hcarries. rewrite Hcarries. apply lift_answer.
Qed.

Lemma configured_health_means_validation_witness :
  exists token number : str,
    TWILIO_AUTH_TOKEN secret_set = Some token /\ token <> ""
    /\ Some "+15550199" = Some number /\ number <> ""
    /\ get (health_check secret_set (Some "+15550199")) "phone_number" JNull
       = inr (JStr number)
    /\ validate_twilio_request library secret_set (sample_request "bad") sample_body fresh
       = (fresh, answer (library token (url (sample_request "bad")) sample_body "bad")).
Proof.
  apply (configured_health_means_validation library secret_set (Some "+15550199")
           (sample_request "bad") sample_body "bad" fresh).
  - reflexivity.
  - left. exists [("content-type", "application/x-www-form-urlencoded")], [].
    split; [reflexivity|]. intros v [H|[]]. discriminate.
Defined.

End WebhookCover.

(** ** The streaming endpoint: what the claims leave out *)

Module StreamCover.

Import Py Eff MediaStream Notes Shapes StreamFacts.

(** A send leaves the lines alone and writes its message or nothing. *)
Lemma send_text_effect (websocket : WebSocket) (message : json) (w : world) :
  stdout (fst (send_text websocket message w)) = stdout w
  /\ (sent (fst (send_text websocket message w)) = sent w
      \/ sent (fst (send_text websocket message w)) = sent w ++ [(Carrier, message)]).
Proof.
  unfold send_text. destruct (send_fault websocket (attempts w)); cbn; auto.
Qed.

(** What handling one received text can do to the world: print some lines,
    and write nothing or, for a media event, one echo. *)
Lemma on_message_effect (websocket : WebSocket) (message : option json) (w : world) :
  exists (ls : list line) (ms : list (peer * json)),
    stdout (fst (on_message websocket message w)) = stdout w ++ ls
    /\ sent (fst (on_message websocket message w)) = sent w ++ ms
    /\ (ms = [] \/ (media_text (Text message) = true /\ exists sid payload, ms = [echo sid payload])).
Proof.
  assert (Hnone : forall {A} (l : list A), l = l ++ []) by (intros; now rewrite app_nil_r).
  destruct message as [data|];
    [|exists [], []; cbn; repeat split; auto].
  destruct data;
    try (exists [], []; cbn; repeat split; auto; fail).
  unfold media_text, on_message, json_loads, lift, get, bind, print, ret, raise.
  cbn [fst snd stdout sent attempts].
  destruct (eq_str (dict_get d "event" JNull) "connected");
    [exists [stream_connected], []; cbn; repeat split; auto|].
  destruct (eq_str (dict_get d "event" JNull) "start").
  { destruct (dict_get d "start" (JDict [])); cbn [fst snd stdout sent attempts];
      try (exists [stream_started], []; cbn; repeat split; auto; fail).
    exists [stream_started; stream_sid_is (dict_get d0 "streamSid" JNull)], [].
    cbn. rewrite <- app_assoc. repeat split; auto. }
  destruct (eq_str (dict_get d "event" JNull) "media").
  { destruct (dict_get d "media" (JDict [])); cbn [fst snd stdout sent attempts];
      try (exists [], []; cbn; repeat split; auto; fail).
    set (payload := dict_get d0 "payload" JNull).
    set (message := JDict [("event", JStr "media");
                           ("streamSid", dict_get d "streamSid" JNull);
                           ("media", JDict [("payload", payload)])]).
    assert (Hsend : forall n,
               exists (ls : list line) (ms : list (peer * json)),
                 stdout (fst (let (w', o) :=
                                send_text websocket message
                                  (mkWorld (stdout w ++ [received_audio n]) (sent w) (attempts w)) in
                              match o with
                              | Done _ => (w', Done Continue)
                              | Raised e => (w', Raised e)
                              | Pending => (w', Pending)
                              end)) = stdout w ++ ls
                 /\ sent (fst (let (w', o) :=
                                send_text websocket message
                                  (mkWorld (stdout w ++ [received_audio n]) (sent w) (attempts w)) in
                              match o with
                              | Done _ => (w', Done Continue)
                              | Raised e => (w', Raised e)
                              | Pending => (w', Pending)
                              end)) = sent w ++ ms
                 /\ (ms = [] \/ (true = true /\ exists sid p, ms = [echo sid p]))).
    { intros n.
      set (w1 := mkWorld (stdout w ++ [received_audio n]) (sent w) (attempts w)).
      destruct (send_text_effect websocket message w1) as [Hout Hsent].
      destruct (send_text websocket message w1) as [w2 [[]|e|]];
        cbn [fst snd] in *; rewrite Hout;
        (destruct Hsent as [-> | ->];
         [exists [received_audio n], []; cbn; repeat split; auto
         |exists [received_audio n], [echo (dict_get d "streamSid" JNull) payload];
          cbn; repeat split; auto; right; split; [reflexivity|eauto]]). }
    destruct (truthy payload).
    - destruct (len payload) as [e|n]; cbn [fst snd stdout sent attempts].
      + exists [], []; cbn; repeat split; auto.
      + apply Hsend.
    - cbn [fst snd stdout sent attempts]. apply Hsend. }
  destruct (eq_str (dict_get d "event" JNull) "stop");
    [exists [stream_stopped], []|exists [], []]; cbn; repeat split; auto.
Qed.

(** The loop only extends the world: lines are added at the end, and the
    messages written are echoes, at most one per media event received. *)
Lemma receive_loop_effect (websocket : WebSocket) (arrivals : list arrival) (w : world) :
  exists (ls : list line) (ms : list (peer * json)),
    stdout (fst (receive_loop websocket arrivals w)) = stdout w ++ ls
    /\ sent (fst (receive_loop websocket arrivals w)) = sent w ++ ms
    /\ Forall is_echo ms
    /\ List.length ms <= List.length (filter media_text arrivals).
Proof.
  revert w. induction arrivals as [|[message|e] rest IH]; intros w.
  - exists [], []. cbn. rewrite !app_nil_r. repeat split; auto.
  - cbn [receive_loop]. unfold bind.
    destruct (on_message_effect websocket message w) as (ls & ms & Hout & Hsent & Hms).
    destruct (on_message websocket message w) as [w1 r] eqn:E. cbn [fst] in Hout, Hsent.
    assert (Hecho : Forall is_echo ms
                    /\ List.length ms <= (if media_text (Text message) then 1 else 0)).
    { destruct Hms as [-> | [Hm (sid & payload & ->)]].
      - split; [constructor|cbn; lia].
      - rewrite Hm. split; [|cbn; lia]. repeat constructor. now exists sid, payload. }
    destruct Hecho as [Hecho Hlen].
    assert (Hstay : exists (ls0 : list line) (ms0 : list (peer * json)),
               stdout w1 = stdout w ++ ls0 /\ sent w1 = sent w ++ ms0
               /\ Forall is_echo ms0
               /\ List.length ms0 <= List.length (filter media_text (Text message :: rest))).
    { exists ls, ms. repeat split; auto. cbn [filter].
      destruct (media_text (Text message)); cbn [List.length]; lia. }
    destruct r as [[|]|e|]; cbn [fst]; try exact Hstay.
    destruct (IH w1) as (ls' & ms' & Hout' & Hsent' & Hecho' & Hlen').
    exists (ls ++ ls'), (ms ++ ms').
    rewrite Hout', Hsent', Hout, Hsent, <- !app_assoc. repeat split.
    + now apply Forall_app.
    + rewrite length_app. cbn [filter].
      destruct (media_text (Text message)); cbn [List.length]; lia.
  - exists [], []. cbn. rewrite !app_nil_r. repeat split; auto. lia.
Qed.

(** X9.  Whatever arrives, the only messages the handler writes are echoes
    addressed to the carrier, appended to what was written before, and there
    are no more of them than media events among the arrivals. *)
Theorem only_echoes_are_written (websocket : WebSocket) (w : world) :
  exists ms : list (peer * json),
    sent (fst (handle_media_stream websocket w)) = sent w ++ ms
    /\ Forall is_echo ms
    /\ List.length ms <= List.length (filter media_text (incoming websocket)).
Proof.
  rewrite handler_of_loop.
  destruct (receive_loop_effect websocket (incoming websocket)
              (printed w [websocket_connected])) as (ls & ms & _ & Hsent & Hecho & Hlen).
  exists ms.
  destruct (receive_loop websocket (incoming websocket) _) as [w' [[]|e|]];
    cbn [fst] in *; try destruct (is_Exception e); cbn; auto.
Qed.



Lemma stop_breaks (websocket : WebSocket) d (w : world) :
  dict_get d "event" JNull = JStr "stop" ->
  on_message websocket (Some (JDict d)) w = (printed w [stream_stopped], Done Break).
Proof.
  intros Hevent. unfold on_message, json_loads, bind.
  cbn [get lift ret]. now rewrite Hevent.
Qed.

(** X12.  A stop event on a live session ends it in good order: the handler
    prints the stop and the disconnection, writes nothing more, returns, and
    does not look at what arrives after the stop. *)
Theorem stop_ends_the_session
    (websocket : WebSocket) (before after : list arrival) d (w w' : world) :
  handle_media_stream (arriving websocket before) w = (w', Pending) ->
  dict_get d "event" JNull = JStr "stop" ->
  handle_media_stream (arriving websocket (before ++ Text (Some (JDict d)) :: after)) w
  = (printed w' [stream_stopped; websocket_disconnected], Done tt).
Proof.
  intros Hlive Hevent. apply handler_waiting in Hlive.
  rewrite handler_arriving, receive_loop_app, Hlive.
  cbn [receive_loop]. unfold bind. rewrite (stop_breaks _ _ _ Hevent).
  unfold printed; cbn. now rewrite <- app_assoc.
Qed.

Lemma stop_ends_the_session_witness :
  handle_media_stream
    (arriving (reliable [])
       ([Text (Some (start_event "S1"))]
        ++ Text (Some (JDict [("event", JStr "stop")])) :: [Text None]))
    fresh
  = (printed (mkWorld [websocket_connected; stream_started; stream_sid_is (JStr "S1")] [] 0)
       [stream_stopped; websocket_disconnected],
     Done tt).
Proof.
  apply (stop_ends_the_session (reliable []) [Text (Some (start_event "S1"))] [Text None]
           [("event", JStr "stop")]).
  - reflexivity.
  - reflexivity.
Defined.

(** X13.  JSON that parses but has the wrong shape ends a live session with
    an AttributeError, caught and printed: a message that is no object, a
    start event whose [start] field is no object, a media event whose
    [media] field is no object.  In the last two cases nothing is sent. *)
Theorem wrong_shape_ends_the_session
    (websocket : WebSocket) (before after : list arrival) (w w' : world) :
  handle_media_stream (arriving websocket before) w = (w', Pending) ->
  (forall data,
      (forall d, data <> JDict d) ->
      handle_media_stream (arriving websocket (before ++ Text (Some data) :: after)) w
      = (printed w' [websocket_error AttributeError; websocket_disconnected], Done tt))
  /\ (forall d,
         dict_get d "event" JNull = JStr "start" ->
         (forall s, dict_get d "start" (JDict []) <> JDict s) ->
         handle_media_stream (arriving websocket (before ++ Text (Some (JDict d)) :: after)) w
         = (printed w' [stream_started; websocket_error AttributeError;
                        websocket_disconnected], Done tt))
  /\ (forall d,
         dict_get d "event" JNull = JStr "media" ->
         (forall m, dict_get d "media" (JDict []) <> JDict m) ->
         handle_media_stream (arriving websocket (before ++ Text (Some (JDict d)) :: after)) w
         = (printed w' [websocket_error AttributeError; websocket_disconnected], Done tt)).
Proof.
  intros Hlive. apply handler_waiting in Hlive. repeat split.
  - intros data Hshape. rewrite handler_arriving, receive_loop_app, Hlive.
    cbn [receive_loop]. unfold bind, on_message, json_loads, bind.
    destruct data; try reflexivity. now elim (Hshape d).
  - intros d Hevent Hshape. rewrite handler_arriving, receive_loop_app, Hlive.
    cbn [receive_loop]. unfold bind, on_message, json_loads, bind.
    cbn [get lift ret]. rewrite Hevent.
    cbn [eq_str String.eqb Ascii.eqb Bool.eqb andb print fst snd].
    destruct (dict_get d "start" (JDict [])) eqn:E;
      try (unfold printed; cbn; now rewrite <- !app_assoc).
    now elim (Hshape d0).
  - intros d Hevent Hshape. rewrite handler_arriving, receive_loop_app, Hlive.
    cbn [receive_loop]. unfold bind, on_message, json_loads, bind.
    cbn [get lift ret]. rewrite Hevent.
    cbn [eq_str String.eqb Ascii.eqb Bool.eqb andb print fst snd].
    destruct (dict_get d "media" (JDict [])) eqn:E; try reflexivity.
    now elim (Hshape d0).
Qed.

Lemma wrong_shape_ends_the_session_witness :
  handle_media_stream
    (arriving (reliable [])
       ([Text (Some (start_event "S1"))] ++ Text (Some (JList [])) :: [Text (Some stop_event)]))
    fresh
  = (printed (mkWorld [websocket_connected; stream_started; stream_sid_is (JStr "S1")] [] 0)
       [websocket_error AttributeError; websocket_disconnected],
     Done tt).
Proof.
  apply (proj1 (wrong_shape_ends_the_session (reliable [])
                  [Text (Some (start_event "S1"))] [Text (Some stop_event)] fresh _ eq_refl)).
  discriminate.
Defined.

(** X14.  An exception of the receive that is no [Exception] (a cancelled
    task, a keyboard interrupt) is not swallowed: no error line is printed,
    the disconnection line is, and the exception leaves the handler. *)
Theorem base_exception_passes_through
    (websocket : WebSocket) (before after : list arrival) (e : exn) (w w' : world) :
  handle_media_stream (arriving websocket before) w = (w', Pending) ->
  is_Exception e = false ->
  handle_media_stream (arriving websocket (before ++ Fault e :: after)) w
  = (printed w' [websocket_disconnected], Raised e).
Proof.
  intros Hlive He. apply handler_waiting in Hlive.
  rewrite handler_arriving, receive_loop_app, Hlive.
  cbn [receive_loop]. unfold raise. now rewrite He.
Qed.

Lemma base_exception_passes_through_witness :
  handle_media_stream
    (arriving (reliable []) ([Text (Some (start_event "S1"))] ++ Fault CancelledError :: []))
    fresh
  = (printed (mkWorld [websocket_connected; stream_started; stream_sid_is (JStr "S1")] [] 0)
       [websocket_disconnected],
     Raised CancelledError).
Proof.
  apply (base_exception_passes_through (reliable []) [Text (Some (start_event "S1"))]).
  - reflexivity.
  - reflexivity.
Defined.

(** X15.  A media event that carries no payload (no [media] field, or a
    [media] object without [payload]) is still echoed when the send
    succeeds: the size printed is 0 and the message written has a null
    payload. *)
Theorem missing_payload_is_echoed_as_null
    (websocket : WebSocket) d (rest : list arrival) (w : world) :
  dict_get d "event" JNull = JStr "media" ->
  lookup "media" d = None
  \/ (exists m, lookup "media" d = Some (JDict m) /\ lookup "payload" m = None) ->
  send_fault websocket (attempts w) = None ->
  receive_loop websocket (Text (Some (JDict d)) :: rest) w
  = receive_loop websocket rest
      (mkWorld (stdout w ++ [received_audio 0])
               (sent w ++ [echo (dict_get d "streamSid" JNull) JNull])
               (S (attempts w))).
Proof.
  intros Hevent Hmissing Hsend.
  assert (exists m, dict_get d "media" (JDict []) = JDict m
                    /\ dict_get m "payload" JNull = JNull) as (m & Hmedia & Hpayload).
  { destruct Hmissing as [H | (m & H & Hp)].
    - exists []. unfold dict_get. now rewrite H.
    - exists m. unfold dict_get. now rewrite H, Hp. }
  cbn [receive_loop]. unfold bind.
  rewrite (media_is_echoed websocket d m); try assumption.
  - now rewrite Hpayload.
  - now rewrite Hpayload.
Qed.

Lemma missing_payload_is_echoed_as_null_witness :
  receive_loop (reliable []) [Text (Some (JDict [("event", JStr "media")]))] fresh
  = (mkWorld [received_audio 0] [echo JNull JNull] 1, Pending).
Proof.
  apply (missing_payload_is_echoed_as_null (reliable []) [("event", JStr "media")] [] fresh).
  - reflexivity.
  - left; reflexivity.
  - reflexivity.
Defined.

Lemma closing_text_does_not_continue (websocket : WebSocket) (message : option json) (w : world) :
  closes (Text message) = true ->
  snd (on_message websocket message w) <> Done Continue.
Proof.
  destruct message as [data|]; [|discriminate].
  destruct data; try discriminate.
  cbn [closes]. intros H.
  destruct (dict_get d "event" JNull) eqn:E; try discriminate.
  cbn in H. apply String.eqb_eq in H. subst s.
  rewrite (stop_breaks _ _ _ E). discriminate.
Qed.

Lemma closing_arrival_ends_loop (websocket : WebSocket) (arrivals : list arrival) (w : world) :
  existsb closes arrivals = true ->
  snd (receive_loop websocket arrivals w) <> Pending.
Proof.
  revert w. induction arrivals as [|[message|e] rest IH]; intros w H; try discriminate.
  cbn [existsb] in H. cbn [receive_loop]. unfold bind.
  pose proof (on_message_ends websocket message w) as Hends.
  pose proof (closing_text_does_not_continue websocket message w) as Hclose.
  destruct (on_message websocket message w) as [w1 [[|]|e|]]; cbn [snd] in *;
    try discriminate; [|now elim Hends].
  destruct (closes (Text message)); [now elim Hclose|]. now apply IH.
Qed.

(** X16.  A connection on which a failed receive, a text that is no JSON, a
    JSON value that is no object or a stop event has arrived never leaves the
    handler waiting: it has ended. *)
Theorem closing_arrival_ends_handler (websocket : WebSocket) (w : world) :
  existsb closes (incoming websocket) = true ->
  snd (handle_media_stream websocket w) <> Pending.
Proof.
  intros H. rewrite handler_of_loop.
  pose proof (closing_arrival_ends_loop websocket (incoming websocket)
                (printed w [websocket_connected]) H) as Hloop.
  destruct (receive_loop websocket (incoming websocket) _) as [w' [[]|e|]];
    cbn [snd] in *; try discriminate; [|now elim Hloop].
  destruct (is_Exception e); discriminate.
Qed.

Lemma closing_arrival_ends_handler_witness :
  existsb closes [Text (Some (start_event "S1")); Fault WebSocketDisconnect] = true
  /\ snd (handle_media_stream
            (reliable [Text (Some (start_event "S1")); Fault WebSocketDisconnect]) fresh)
     <> Pending.
Proof.
  split; [reflexivity|].
  apply (closing_arrival_ends_handler
           (reliable [Text (Some (start_event "S1")); Fault WebSocketDisconnect]) fresh).
  reflexivity.
Defined.

End StreamCover.
